(** * Health Navigator (app2.jsx): a shallow embedding and its properties

    The program is one React component, [App], whose handlers talk to
    three remote services: a document store (medication reminders), the
    Google Fitness aggregate endpoint (yesterday's steps) and a
    generative-model endpoint (chat).  The embedding keeps the shape of
    the source:

    - JavaScript values that arrive as parsed JSON are [jsval]; member
      access, optional chaining and truthiness follow ECMAScript;
    - the [useState] cells of [App] are the fields of [AppState],
      together with the cells of the medication form, which [App]
      mounts anew whenever it renders again;
    - an [async] handler is a [Task]: a tree of state updates and awaited
      calls, with [throw], [try/catch] and [try/finally];
    - what a handler captured from the render that created it (its
      closure) is an explicit argument of the handler.

    Conventions.  JavaScript numbers are modelled by [Z]: the
    integer-valued doubles of the safe range, where [+], [-], [*] and [%]
    are exact; millisecond timestamps and step counts lie in that range.
    JavaScript strings are modelled by [string], read as UTF-8 bytes. *)

From Stdlib Require Import ZArith Lia Ascii DecimalString.
From Stdlib Require String.
From stdpp Require Import gmap strings list sorting.

Local Open Scope Z_scope.

(** ** Strings *)

Module JsString.

(** [!s] is false exactly for the empty string. *)
Definition truthy (s : string) : bool :=
  match s with
  | EmptyString => false
  | String _ _ => true
  end.

(** [s.replace(/c/g, d)] for a one-character pattern [c]. *)
Fixpoint replace_all (c d : ascii) (s : string) : string :=
  match s with
  | EmptyString => EmptyString
  | String x r =>
      String (if Ascii.eqb x c then d else x) (replace_all c d r)
  end.

(** [s.substring(1)]. *)
Definition substring1 (s : string) : string :=
  match s with
  | EmptyString => EmptyString
  | String _ r => r
  end.

(** [s.startsWith(p)]. *)
Definition startsWith (s p : string) : bool := String.prefix p s.

(** The pieces of [s] between the occurrences of [c]; at least one
    piece, possibly empty. *)
Fixpoint split_on (c : ascii) (s : string) : list string :=
  match s with
  | EmptyString => [EmptyString]
  | String x r =>
      if Ascii.eqb x c then EmptyString :: split_on c r
      else match split_on c r with
           | [] => [String x EmptyString]
           | p :: ps => String x p :: ps
           end
  end.

(** [s] cut at the first [c]: the part before it, and the part after
    it when there is a [c]. *)
Fixpoint cut_first (c : ascii) (s : string) : string * option string :=
  match s with
  | EmptyString => (EmptyString, None)
  | String x r =>
      if Ascii.eqb x c then (EmptyString, Some r)
      else let '(a, b) := cut_first c r in (String x a, b)
  end.

(** White space as [String.prototype.trim] sees it (WhiteSpace and
    LineTerminator of ECMAScript), on the UTF-8 bytes of the string:
    [skip_space s] is the rest of [s] after one leading white-space
    character, when [s] starts with one. *)
Definition skip_space (s : string) : option string :=
  match s with
  | String c r =>
      match N_of_ascii c, r with
      | (9 | 10 | 11 | 12 | 13 | 32)%N, _ => Some r
      | 194%N, String d r1 =>
          (* U+00A0 *)
          if (N_of_ascii d =? 160)%N then Some r1 else None
      | 225%N, String d (String e r2) =>
          (* U+1680 *)
          if ((N_of_ascii d =? 154) && (N_of_ascii e =? 128))%N
          then Some r2 else None
      | 226%N, String d (String e r2) =>
          (* U+2000..U+200A, U+2028, U+2029, U+202F, U+205F *)
          let e := N_of_ascii e in
          if (N_of_ascii d =? 128)%N
             && (((128 <=? e) && (e <=? 138)) || (e =? 168) || (e =? 169)
                 || (e =? 175))%N
          then Some r2
          else if ((N_of_ascii d =? 129) && (e =? 159))%N then Some r2
          else None
      | 227%N, String d (String e r2) =>
          (* U+3000 *)
          if ((N_of_ascii d =? 128) && (N_of_ascii e =? 128))%N
          then Some r2 else None
      | 239%N, String d (String e r2) =>
          (* U+FEFF *)
          if ((N_of_ascii d =? 187) && (N_of_ascii e =? 191))%N
          then Some r2 else None
      | _, _ => None
      end
  | EmptyString => None
  end.

(** [!s.trim()]: nothing but white space.  The fuel is the length of
    the string, and every skipped character is at least one byte. *)
Fixpoint blank_fuel (fuel : nat) (s : string) : bool :=
  match s with
  | EmptyString => true
  | String _ _ =>
      match fuel with
      | O => false
      | S fuel' =>
          match skip_space s with
          | Some r => blank_fuel fuel' r
          | None => false
          end
      end
  end.

Definition trim_is_empty (s : string) : bool :=
  blank_fuel (String.length s) s.

(** Decimal text of an integer, as [Number.prototype.toString] prints
    the integers of the safe range. *)
Definition of_Z (n : Z) : string := NilZero.string_of_int (Z.to_int n).

Definition of_nat (n : nat) : string :=
  NilZero.string_of_uint (Nat.to_uint n).

End JsString.

(** ** JavaScript values and member access *)

(** The values a parsed JSON body is made of, and [undefined], which
    reading a missing member yields.  An object is the list of its own
    members; a lookup takes the first entry of a name. *)
#[warnings="-register-all"]
Inductive jsval : Type :=
| JUndefined
| JNull
| JBool (b : bool)
| JNum (n : Z)
| JStr (s : string)
| JArr (items : list jsval)
| JObj (members : list (string * jsval)).

(** The member names the program reads.  None of them is inherited from
    a prototype, so on a value that is not an object they read as
    [undefined]. *)
Inductive PropName : Type :=
| P_bucket | P_dataset | P_point | P_value | P_intVal
| P_candidates | P_content | P_parts | P_text
| P_groundingMetadata | P_groundingAttributions | P_web | P_uri | P_title.

Definition prop_string (p : PropName) : string :=
  match p with
  | P_bucket => "bucket" | P_dataset => "dataset" | P_point => "point"
  | P_value => "value" | P_intVal => "intVal"
  | P_candidates => "candidates" | P_content => "content"
  | P_parts => "parts" | P_text => "text"
  | P_groundingMetadata => "groundingMetadata"
  | P_groundingAttributions => "groundingAttributions"
  | P_web => "web" | P_uri => "uri" | P_title => "title"
  end.

(** A member selector: [.name] or [[i]]. *)
Inductive key : Type :=
| Field (p : PropName)
| Index (i : nat).

Definition key_string (k : key) : string :=
  match k with
  | Field p => prop_string p
  | Index i => JsString.of_nat i
  end.

(** What the engine reports and the host words in its own way. *)
Inductive EngineFault : Type :=
| ReadOfNullish (v : jsval) (k : key)
| NotAFunction (v : jsval).

(** An [Error] object, of which the program reads [message] only. *)
Record JsError : Type := mkError { error_message : string }.

(** The parts of the browser the program calls and the source does not
    contain. *)
Record Host : Type := mkHost {
  (** [v.toLocaleString()], which depends on the locale of the browser *)
  toLocaleString : jsval -> string;
  (** the [message] of the [TypeError] the engine throws *)
  engine_message : EngineFault -> string;
  (** [v > 0] for a string, an array or an object [v]: ECMAScript turns
      such an operand into a number through its text *)
  gt_zero_coerced : jsval -> bool
}.

Module Js.

Definition truthy (v : jsval) : bool :=
  match v with
  | JUndefined | JNull => false
  | JBool b => b
  | JNum n => negb (n =? 0)
  | JStr s => JsString.truthy s
  | JArr _ | JObj _ => true
  end.

Definition nullish (v : jsval) : bool :=
  match v with
  | JUndefined | JNull => true
  | _ => false
  end.

(** [a || b] *)
Definition or (a b : jsval) : jsval := if truthy a then a else b.

Fixpoint assoc (name : string) (members : list (string * jsval)) : jsval :=
  match members with
  | [] => JUndefined
  | (n, v) :: rest => if String.eqb n name then v else assoc name rest
  end.

(** [v.k] or [v[k]] on a value that is neither [null] nor [undefined]. *)
Definition member (v : jsval) (k : key) : jsval :=
  match v, k with
  | JObj ms, _ => assoc (key_string k) ms
  | JArr l, Index i => nth i l JUndefined
  | JStr s, Index i =>
      match String.get i s with
      | Some c => JStr (String c EmptyString)
      | None => JUndefined
      end
  | _, _ => JUndefined
  end.

(** [v?.k] and [v?.[k]] *)
Definition opt (v : jsval) (k : key) : jsval :=
  if nullish v then JUndefined else member v k.

(** [v.k] and [v[k]]: reading a member of [null] or [undefined] throws. *)
Definition get (h : Host) (v : jsval) (k : key) : JsError + jsval :=
  if nullish v then inl (mkError (engine_message h (ReadOfNullish v k)))
  else inr (member v k).

(** [v === 0] *)
Definition is_zero (v : jsval) : bool :=
  match v with
  | JNum n => n =? 0
  | _ => false
  end.

(** [v > 0] *)
Definition gt_zero (h : Host) (v : jsval) : bool :=
  match v with
  | JUndefined | JNull => false
  | JBool b => b
  | JNum n => 0 <? n
  | JStr _ | JArr _ | JObj _ => gt_zero_coerced h v
  end.

(** [Object.is(a, b)] for a value [a] a call has just made or read
    from a parsed body: numbers, strings and booleans are the same when
    they are equal; an array or an object made anew is no value that
    was there before. *)
Definition same_value (a b : jsval) : bool :=
  match a, b with
  | JUndefined, JUndefined | JNull, JNull => true
  | JBool x, JBool y => Bool.eqb x y
  | JNum x, JNum y => x =? y
  | JStr x, JStr y => String.eqb x y
  | _, _ => false
  end.

(** The text of a value in a template literal. *)
Fixpoint to_string (v : jsval) : string :=
  match v with
  | JUndefined => "undefined"
  | JNull => "null"
  | JBool true => "true"
  | JBool false => "false"
  | JNum n => JsString.of_Z n
  | JStr s => s
  | JArr l =>
      String.concat ","
        (List.map (fun x => if nullish x then EmptyString else to_string x) l)
  | JObj _ => "[object Object]"
  end.

End Js.

(** A host for the examples: English (US) digit grouping for numbers,
    the wording of V8 for type errors and, for operands that are not
    numbers, a comparison that no example reaches. *)
Module ExampleHost.

Fixpoint group3 (fuel : nat) (digits : list ascii) : list ascii :=
  match fuel, digits with
  | S fuel', a :: b :: c :: d :: rest =>
      a :: b :: c :: ","%char :: group3 fuel' (d :: rest)
  | _, _ => digits
  end.

Definition en_US (v : jsval) : string :=
  match v with
  | JNum n =>
      let digits := String.list_ascii_of_string (JsString.of_Z (Z.abs n)) in
      let grouped := List.rev (group3 (List.length digits) (List.rev digits)) in
      ((if n <? 0 then "-" else EmptyString)
         +:+ String.string_of_list_ascii grouped)
  | _ => Js.to_string v
  end.

Definition v8_message (f : EngineFault) : string :=
  match f with
  | ReadOfNullish v k =>
      "Cannot read properties of " +:+ Js.to_string v
        +:+ " (reading '" +:+ key_string k +:+ "')"
  | NotAFunction _ => "groundingMetadata.groundingAttributions.map is not a function"
  end.

Definition host : Host :=
  {| toLocaleString := en_US;
     engine_message := v8_message;
     gt_zero_coerced := fun _ => false |}.

End ExampleHost.

(** ** The state of the component *)

Inductive Role : Type := User | Model.

(** A cited source: [{ uri, title }]. *)
Record Source : Type := mkSource { uri : jsval; title : jsval }.

(** A transcript entry [{ role, parts: [{ text }], sources }]; the
    entries the program builds for the user and for failures have no
    [sources] member. *)
Record ChatMessage : Type := mkChat {
  role : Role;
  text : jsval;
  sources : option (list Source)
}.

Inductive MessageType : Type := MsgError | MsgSuccess.

(** The notice shown by [MessagePopup]: [{ type, text }]. *)
Record Message : Type := mkMessage {
  msg_type : MessageType;
  msg_text : string
}.

Inductive Tab : Type := TabMedications | TabFit | TabChat.

(** A record of the synced list: [{ id: doc.id, ...doc.data() }]. *)
Record Medication : Type := mkMedication {
  med_id : string;
  med_name : string;
  med_dose : string;
  med_time : string;
  med_isTaken : bool;
  med_createdAt : Z
}.

(** The [useState] cells of [App], and the three cells of the
    [MedicationForm] that is mounted.  [MedicationForm] is declared in
    the body of [App], so every render of [App] makes a new component
    of it: React unmounts the form of the render before and mounts a
    new one, whose cells start empty.  The form cells therefore hold
    what was typed since the last render of [App]. *)
Record AppState : Type := mkApp {
  userId : option string;
  isAuthReady : bool;
  medications : list Medication;
  chatHistory : list ChatMessage;
  chatInput : string;
  isChatLoading : bool;
  activeTab : Tab;
  message : option Message;
  googleAccessToken : option string;
  stepCount : option jsval;
  isFitLoading : bool;
  formName : string;
  formDose : string;
  formTime : string
}.

(** The state of a freshly mounted component. *)
Definition initial_state : AppState :=
  {| userId := None; isAuthReady := false; medications := [];
     chatHistory := []; chatInput := EmptyString; isChatLoading := false;
     activeTab := TabMedications; message := None;
     googleAccessToken := None; stepCount := None; isFitLoading := false;
     formName := EmptyString; formDose := EmptyString;
     formTime := EmptyString |}.

(** A setter of [App] called with the value its cell already has
    ([Object.is]) leaves the component as it is; called with another
    value, it has React render [App] again, and the form is mounted
    anew.  [kept same cell] is a form cell after the call of a setter
    of [App]: what it was when the value is the same, empty otherwise. *)
Definition kept (same : bool) (cell : string) : string :=
  if same then cell else EmptyString.

Definition Tab_eqb (a b : Tab) : bool :=
  match a, b with
  | TabMedications, TabMedications | TabFit, TabFit | TabChat, TabChat => true
  | _, _ => false
  end.

(** [null] is [None]. *)
Definition same_opt {A : Type} (same : A -> A -> bool) (a b : option A) : bool :=
  match a, b with
  | None, None => true
  | Some x, Some y => same x y
  | _, _ => false
  end.

(** A notice is an object literal, made anew by the call that shows it;
    only [null] can be the value the cell has. *)
Definition same_notice (a b : option Message) : bool :=
  match a, b with
  | None, None => true
  | _, _ => false
  end.

(** The setters returned by [useState] in [App].  The arrays given to
    [setMedications] and [setChatHistory] are made anew by every
    caller, so these two always render [App] again. *)
Definition setMedications (v : list Medication) (st : AppState) : AppState :=
  {| userId := userId st;
     isAuthReady := isAuthReady st;
     medications := v;
     chatHistory := chatHistory st;
     chatInput := chatInput st;
     isChatLoading := isChatLoading st;
     activeTab := activeTab st;
     message := message st;
     googleAccessToken := googleAccessToken st;
     stepCount := stepCount st;
     isFitLoading := isFitLoading st;
     formName := EmptyString;
     formDose := EmptyString;
     formTime := EmptyString |}.

Definition setChatHistory (v : list ChatMessage) (st : AppState) : AppState :=
  {| userId := userId st;
     isAuthReady := isAuthReady st;
     medications := medications st;
     chatHistory := v;
     chatInput := chatInput st;
     isChatLoading := isChatLoading st;
     activeTab := activeTab st;
     message := message st;
     googleAccessToken := googleAccessToken st;
     stepCount := stepCount st;
     isFitLoading := isFitLoading st;
     formName := EmptyString;
     formDose := EmptyString;
     formTime := EmptyString |}.

Definition setChatInput (v : string) (st : AppState) : AppState :=
  {| userId := userId st;
     isAuthReady := isAuthReady st;
     medications := medications st;
     chatHistory := chatHistory st;
     chatInput := v;
     isChatLoading := isChatLoading st;
     activeTab := activeTab st;
     message := message st;
     googleAccessToken := googleAccessToken st;
     stepCount := stepCount st;
     isFitLoading := isFitLoading st;
     formName := kept (String.eqb v (chatInput st)) (formName st);
     formDose := kept (String.eqb v (chatInput st)) (formDose st);
     formTime := kept (String.eqb v (chatInput st)) (formTime st) |}.

Definition setIsChatLoading (v : bool) (st : AppState) : AppState :=
  {| userId := userId st;
     isAuthReady := isAuthReady st;
     medications := medications st;
     chatHistory := chatHistory st;
     chatInput := chatInput st;
     isChatLoading := v;
     activeTab := activeTab st;
     message := message st;
     googleAccessToken := googleAccessToken st;
     stepCount := stepCount st;
     isFitLoading := isFitLoading st;
     formName := kept (Bool.eqb v (isChatLoading st)) (formName st);
     formDose := kept (Bool.eqb v (isChatLoading st)) (formDose st);
     formTime := kept (Bool.eqb v (isChatLoading st)) (formTime st) |}.

Definition setActiveTab (v : Tab) (st : AppState) : AppState :=
  {| userId := userId st;
     isAuthReady := isAuthReady st;
     medications := medications st;
     chatHistory := chatHistory st;
     chatInput := chatInput st;
     isChatLoading := isChatLoading st;
     activeTab := v;
     message := message st;
     googleAccessToken := googleAccessToken st;
     stepCount := stepCount st;
     isFitLoading := isFitLoading st;
     formName := kept (Tab_eqb v (activeTab st)) (formName st);
     formDose := kept (Tab_eqb v (activeTab st)) (formDose st);
     formTime := kept (Tab_eqb v (activeTab st)) (formTime st) |}.

Definition setMessage (v : option Message) (st : AppState) : AppState :=
  {| userId := userId st;
     isAuthReady := isAuthReady st;
     medications := medications st;
     chatHistory := chatHistory st;
     chatInput := chatInput st;
     isChatLoading := isChatLoading st;
     activeTab := activeTab st;
     message := v;
     googleAccessToken := googleAccessToken st;
     stepCount := stepCount st;
     isFitLoading := isFitLoading st;
     formName := kept (same_notice v (message st)) (formName st);
     formDose := kept (same_notice v (message st)) (formDose st);
     formTime := kept (same_notice v (message st)) (formTime st) |}.

Definition setGoogleAccessToken (v : option string) (st : AppState) : AppState :=
  {| userId := userId st;
     isAuthReady := isAuthReady st;
     medications := medications st;
     chatHistory := chatHistory st;
     chatInput := chatInput st;
     isChatLoading := isChatLoading st;
     activeTab := activeTab st;
     message := message st;
     googleAccessToken := v;
     stepCount := stepCount st;
     isFitLoading := isFitLoading st;
     formName := kept (same_opt String.eqb v (googleAccessToken st)) (formName st);
     formDose := kept (same_opt String.eqb v (googleAccessToken st)) (formDose st);
     formTime := kept (same_opt String.eqb v (googleAccessToken st)) (formTime st) |}.

Definition setStepCount (v : option jsval) (st : AppState) : AppState :=
  {| userId := userId st;
     isAuthReady := isAuthReady st;
     medications := medications st;
     chatHistory := chatHistory st;
     chatInput := chatInput st;
     isChatLoading := isChatLoading st;
     activeTab := activeTab st;
     message := message st;
     googleAccessToken := googleAccessToken st;
     stepCount := v;
     isFitLoading := isFitLoading st;
     formName := kept (same_opt Js.same_value v (stepCount st)) (formName st);
     formDose := kept (same_opt Js.same_value v (stepCount st)) (formDose st);
     formTime := kept (same_opt Js.same_value v (stepCount st)) (formTime st) |}.

Definition setIsFitLoading (v : bool) (st : AppState) : AppState :=
  {| userId := userId st;
     isAuthReady := isAuthReady st;
     medications := medications st;
     chatHistory := chatHistory st;
     chatInput := chatInput st;
     isChatLoading := isChatLoading st;
     activeTab := activeTab st;
     message := message st;
     googleAccessToken := googleAccessToken st;
     stepCount := stepCount st;
     isFitLoading := v;
     formName := kept (Bool.eqb v (isFitLoading st)) (formName st);
     formDose := kept (Bool.eqb v (isFitLoading st)) (formDose st);
     formTime := kept (Bool.eqb v (isFitLoading st)) (formTime st) |}.

(** The setters returned by [useState] in [MedicationForm]: they render
    the form again, not [App]. *)
Definition setFormName (v : string) (st : AppState) : AppState :=
  {| userId := userId st;
     isAuthReady := isAuthReady st;
     medications := medications st;
     chatHistory := chatHistory st;
     chatInput := chatInput st;
     isChatLoading := isChatLoading st;
     activeTab := activeTab st;
     message := message st;
     googleAccessToken := googleAccessToken st;
     stepCount := stepCount st;
     isFitLoading := isFitLoading st;
     formName := v;
     formDose := formDose st;
     formTime := formTime st |}.

Definition setFormDose (v : string) (st : AppState) : AppState :=
  {| userId := userId st;
     isAuthReady := isAuthReady st;
     medications := medications st;
     chatHistory := chatHistory st;
     chatInput := chatInput st;
     isChatLoading := isChatLoading st;
     activeTab := activeTab st;
     message := message st;
     googleAccessToken := googleAccessToken st;
     stepCount := stepCount st;
     isFitLoading := isFitLoading st;
     formName := formName st;
     formDose := v;
     formTime := formTime st |}.

Definition setFormTime (v : string) (st : AppState) : AppState :=
  {| userId := userId st;
     isAuthReady := isAuthReady st;
     medications := medications st;
     chatHistory := chatHistory st;
     chatInput := chatInput st;
     isChatLoading := isChatLoading st;
     activeTab := activeTab st;
     message := message st;
     googleAccessToken := googleAccessToken st;
     stepCount := stepCount st;
     isFitLoading := isFitLoading st;
     formName := formName st;
     formDose := formDose st;
     formTime := v |}.

(** ** Remote calls *)

Record AggregateBy : Type := mkAggregateBy {
  dataTypeName : string;
  dataSourceId : string
}.

(** The body of the aggregate request. *)
Record AggregateRequest : Type := mkAggregate {
  aggregateBy : list AggregateBy;
  bucketByTime_durationMillis : Z;
  startTimeMillis : Z;
  endTimeMillis : Z
}.

Inductive Tool : Type := GoogleSearch.

(** The body of the generate-content request; [tools] is [None] where
    the source writes [undefined]. *)
Record GeminiPayload : Type := mkPayload {
  contents : list ChatMessage;
  tools : option (list Tool);
  systemInstruction : string
}.

(** The two requests the program sends with [fetch]. *)
Inductive HttpRequest : Type :=
| FitAggregate (bearer : string) (body : AggregateRequest)
| GeminiGenerate (payload : GeminiPayload).

(** A response: its status line, and what [response.json()] settles to. *)
Record Response : Type := mkResponse {
  status : Z;
  statusText : string;
  json : JsError + jsval
}.

(** [response.ok]: the status is in the range 200 to 299. *)
Definition ok (r : Response) : bool :=
  (200 <=? status r) && (status r <=? 299).

Inductive FetchOutcome : Type :=
| FetchRejected (e : JsError)
| FetchResolved (r : Response).

(** The collection [artifacts/{appId}/users/{userId}/medications]. *)
Record CollectionRef : Type := mkRef {
  ref_appId : string;
  ref_userId : string
}.

(** [serverTimestamp()]: a marker the store replaces by its own time. *)
Inductive FieldValue : Type := ServerTimestamp.

(** The document [handleSubmit] hands to [addDoc]. *)
Record NewMedication : Type := mkNew {
  new_name : string;
  new_dose : string;
  new_time : string;
  new_isTaken : bool;
  new_createdAt : FieldValue
}.

Inductive StoreRequest : Type :=
| AddDoc (c : CollectionRef) (d : NewMedication)
| UpdateDoc (c : CollectionRef) (id : string) (isTaken : bool)
| DeleteDoc (c : CollectionRef) (id : string).

Inductive StoreOutcome : Type :=
| StoreResolved
| StoreRejected (e : JsError).

(** ** Asynchronous handlers *)

(** A handler is a tree: it finishes with a value or a thrown error,
    updates the state, reads the clock, or awaits a remote call and goes
    on with what the call settled to. *)
Inductive Task (R : Type) : Type :=
| Return (r : R)
| Throw (e : JsError)
| SetState (f : AppState -> AppState) (k : Task R)
| DateNow (k : Z -> Task R)
| Fetch (req : HttpRequest) (k : FetchOutcome -> Task R)
| Store (req : StoreRequest) (k : StoreOutcome -> Task R).

Arguments Return {R} r.
Arguments Throw {R} e.
Arguments SetState {R} f k.
Arguments DateNow {R} k.
Arguments Fetch {R} req k.
Arguments Store {R} req k.

Module Async.

Fixpoint bind {A B : Type} (t : Task A) (f : A -> Task B) : Task B :=
  match t with
  | Return a => f a
  | Throw e => Throw e
  | SetState u k => SetState u (bind k f)
  | DateNow k => DateNow (fun now => bind (k now) f)
  | Fetch req k => Fetch req (fun o => bind (k o) f)
  | Store req k => Store req (fun o => bind (k o) f)
  end.

(** [try { t } catch (error) { handler error }] *)
Fixpoint try_catch {A : Type} (t : Task A) (handler : JsError -> Task A)
  : Task A :=
  match t with
  | Return a => Return a
  | Throw e => handler e
  | SetState u k => SetState u (try_catch k handler)
  | DateNow k => DateNow (fun now => try_catch (k now) handler)
  | Fetch req k => Fetch req (fun o => try_catch (k o) handler)
  | Store req k => Store req (fun o => try_catch (k o) handler)
  end.

(** [try { t } finally { fin }]: [fin] runs however [t] ends, and [t]'s
    value or error is delivered afterwards. *)
Fixpoint try_finally {A : Type} (t : Task A) (fin : Task unit) : Task A :=
  match t with
  | Return a => bind fin (fun _ => Return a)
  | Throw e => bind fin (fun _ => Throw e)
  | SetState u k => SetState u (try_finally k fin)
  | DateNow k => DateNow (fun now => try_finally (k now) fin)
  | Fetch req k => Fetch req (fun o => try_finally (k o) fin)
  | Store req k => Store req (fun o => try_finally (k o) fin)
  end.

(** A synchronous computation that may throw. *)
Definition lift {A : Type} (r : JsError + A) : Task A :=
  match r with
  | inl e => Throw e
  | inr a => Return a
  end.

(** [setX(v)] as a statement. *)
Definition set (f : AppState -> AppState) : Task unit :=
  SetState f (Return tt).

(** [await fetch(...)]: a rejected promise throws at the [await]. *)
Definition await_fetch (req : HttpRequest) : Task Response :=
  Fetch req (fun o =>
    match o with
    | FetchRejected e => Throw e
    | FetchResolved r => Return r
    end).

(** [await addDoc(...)], [await updateDoc(...)], [await deleteDoc(...)] *)
Definition await_store (req : StoreRequest) : Task unit :=
  Store req (fun o =>
    match o with
    | StoreRejected e => Throw e
    | StoreResolved => Return tt
    end).

End Async.

(** The monad notations [x ← t; k] and [t;; k] for tasks. *)
#[global] Instance Task_ret : MRet Task := @Return.
#[global] Instance Task_bind : MBind Task := fun A B f t => Async.bind t f.

(** ** Running a handler *)

(** What the world answers: the clock, and what each call settles to. *)
Record Env : Type := mkEnv {
  now : Z;
  fetch : HttpRequest -> FetchOutcome;
  store : StoreRequest -> StoreOutcome
}.

Inductive Call : Type :=
| CallFetch (req : HttpRequest)
| CallStore (req : StoreRequest).

(** How a run ended, the state it left, and the calls it issued, oldest
    first. *)
Record Outcome (R : Type) : Type := mkOutcome {
  completion : JsError + R;
  final : AppState;
  calls : list Call
}.

Arguments mkOutcome {R} completion final calls.
Arguments completion {R} o.
Arguments final {R} o.
Arguments calls {R} o.

Definition issued {R : Type} (c : Call) (o : Outcome R) : Outcome R :=
  mkOutcome (completion o) (final o) (c :: calls o).

Fixpoint run {R : Type} (env : Env) (t : Task R) (st : AppState) : Outcome R :=
  match t with
  | Return r => mkOutcome (inr r) st []
  | Throw e => mkOutcome (inl e) st []
  | SetState f k => run env k (f st)
  | DateNow k => run env (k (now env)) st
  | Fetch req k => issued (CallFetch req) (run env (k (fetch env req)) st)
  | Store req k => issued (CallStore req) (run env (k (store env req)) st)
  end.

(** ** The OAuth redirect *)

(** [new URLSearchParams(init)] for a string, after the URL standard:
    a leading [?] is dropped, the rest is cut at [&], empty pieces are
    skipped, each piece is cut at its first [=] (no [=]: the value is
    empty), [+] becomes a space and percent escapes are decoded.  The
    last step of the standard, reading the bytes as UTF-8, is the
    reading of [string]; it changes no ASCII prefix of a name. *)
Module URLSearchParams.

Definition hex_digit (c : ascii) : option N :=
  let n := N_of_ascii c in
  if ((48 <=? n) && (n <=? 57))%N then Some (n - 48)%N
  else if ((65 <=? n) && (n <=? 70))%N then Some (n - 55)%N
  else if ((97 <=? n) && (n <=? 102))%N then Some (n - 87)%N
  else None.

Fixpoint percent_decode (s : string) : string :=
  match s with
  | EmptyString => EmptyString
  | String c r =>
      if Ascii.eqb c "%"%char then
        match r with
        | String hi (String lo r') =>
            match hex_digit hi, hex_digit lo with
            | Some a, Some b =>
                String (ascii_of_N (16 * a + b)) (percent_decode r')
            | _, _ => String c (percent_decode r)
            end
        | _ => String c (percent_decode r)
        end
      else String c (percent_decode r)
  end.

Definition decode (s : string) : string :=
  percent_decode (JsString.replace_all "+"%char " "%char s).

Definition parse_piece (piece : string) : string * string :=
  let '(name, value) := JsString.cut_first "="%char piece in
  (decode name, decode (default EmptyString value)).

Definition parse (input : string) : list (string * string) :=
  List.map parse_piece
    (List.filter JsString.truthy (JsString.split_on "&"%char input)).

Definition create (init : string) : list (string * string) :=
  parse (if JsString.startsWith init "?" then JsString.substring1 init
         else init).

End URLSearchParams.

(** The part of [window] the effect reads and writes. *)
Record Window : Type := mkWindow { location_hash : string }.

(** The fixed [state] value of the authorization URL. *)
Definition oauth_state : string := "google-fit-connect".

(** [params], as the effect builds it from [window.location.hash]. *)
Definition hash_params (w : Window) : list (string * string) :=
  let hash := JsString.substring1 (location_hash w) in
  URLSearchParams.create
    (JsString.replace_all "="%char ":"%char
       (JsString.replace_all "&"%char ","%char hash)).

(** [Array.from(params.entries()).find(([key]) => key.startsWith(p))] *)
Definition find_param (p : string) (params : list (string * string))
  : option (string * string) :=
  List.find (fun entry => JsString.startsWith (fst entry) p) params.

(** The constants [accessToken] and [state] of the effect; [None] is
    [null]. *)
Definition hash_accessToken (w : Window) : option string :=
  snd <$> find_param "access_token" (hash_params w).

Definition hash_state (w : Window) : option string :=
  snd <$> find_param "state" (hash_params w).

Definition truthy_opt (s : option string) : bool :=
  match s with
  | Some s => JsString.truthy s
  | None => false
  end.

(** [state === 'google-fit-connect'] *)
Definition state_matches (state : option string) : bool :=
  match state with
  | Some s => String.eqb s oauth_state
  | None => false
  end.

(** The effect that runs once after mounting.  [replaceState] leaves the
    path name as the address, without the hash. *)
Definition oauth_redirect_effect (w : Window) (st : AppState)
  : Window * AppState :=
  if JsString.truthy (location_hash w) then
    let accessToken := hash_accessToken w in
    let state := hash_state w in
    if truthy_opt accessToken && state_matches state then
      (mkWindow EmptyString,
       setMessage
         (Some (mkMessage MsgSuccess
            "Google Fit connected! Token received. Now fetch your activity."))
         (setGoogleAccessToken accessToken st))
    else (w, st)
  else (w, st).

(** ** Fetching yesterday's steps *)

Definition oneDayMs : Z := 24 * 60 * 60 * 1000.

(** [requestBody] for the clock reading [now]; [%] is the remainder of
    JavaScript, with the sign of the dividend. *)
Definition requestBody (now : Z) : AggregateRequest :=
  let endTimeMs := now - Z.rem now oneDayMs - 1 in
  let startTimeMs := endTimeMs - oneDayMs in
  {| aggregateBy :=
       [ {| dataTypeName := "com.google.step_count.delta";
            dataSourceId :=
              "derived:com.google.step_count.delta:com.google.android.gms:estimated_steps" |} ];
     bucketByTime_durationMillis := oneDayMs;
     startTimeMillis := startTimeMs;
     endTimeMillis := endTimeMs |}.

(** [`${googleAccessToken}`] *)
Definition token_text (t : option string) : string :=
  match t with
  | Some s => s
  | None => "null"
  end.

(** [steps], from the parsed body [data]:
    [data.bucket?.[0]], then
    [stepBucket?.dataset?.[0]?.point?.[0]?.value?.[0]?.intVal || 0]. *)
Definition extract_steps (h : Host) (data : jsval) : JsError + jsval :=
  match Js.get h data (Field P_bucket) with
  | inl e => inl e
  | inr bucket =>
      let stepBucket := Js.opt bucket (Index 0) in
      let dataset := Js.opt stepBucket (Field P_dataset) in
      let point := Js.opt (Js.opt dataset (Index 0)) (Field P_point) in
      let value := Js.opt (Js.opt point (Index 0)) (Field P_value) in
      let intVal := Js.opt (Js.opt value (Index 0)) (Field P_intVal) in
      inr (Js.or intVal (JNum 0))
  end.

Section Handlers.

Variable h : Host.

Definition fetchSteps (googleAccessToken : option string) : Task jsval :=
  if negb (truthy_opt googleAccessToken) then
    Async.set (setMessage (Some (mkMessage MsgError
      "Error: Google Fit Access Token is missing. Please sign in again.")));;
    Return (JNum 0)
  else
    Async.set (setIsFitLoading true);;
    DateNow (fun now =>
      let requestBody := requestBody now in
      Async.try_finally
        (Async.try_catch
           (response ← Async.await_fetch
              (FitAggregate (token_text googleAccessToken) requestBody);
            if negb (ok response) then
              if status response =? 401 then
                Async.set (setMessage (Some (mkMessage MsgError
                  "Google Fit token expired. Please reconnect to Google Fit.")));;
                Async.set (setGoogleAccessToken None);;
                Return (JNum 0)
              else
                Throw (mkError
                  ("Google Fit API error: " +:+ statusText response))
            else
              data ← Async.lift (json response);
              steps ← Async.lift (extract_steps h data);
              Async.set (setStepCount (Some steps));;
              Async.set (setMessage (Some (mkMessage MsgSuccess
                ("Fetched activity successfully! Yesterday's steps: "
                   +:+ Js.to_string steps +:+ "."))));;
              Return steps)
           (fun error =>
              Async.set (setMessage (Some (mkMessage MsgError
                ("Failed to fetch activity: " +:+ error_message error))));;
              Async.set (setStepCount (Some (JNum 0)));;
              Return (JNum 0)))
        (Async.set (setIsFitLoading false))).

(** *** The assistant *)

Definition userTurn (userPrompt : string) : ChatMessage :=
  mkChat User (JStr userPrompt) None.

Definition systemPrompt (isFitQuery : bool) : string :=
  if isFitQuery
  then "You are an encouraging and helpful virtual health coach. Analyze the user's step count and provide concise, motivating feedback and a simple, actionable suggestion in 2-3 sentences. Focus on positive reinforcement."
  else "You are a concise, knowledgeable health and wellness navigator. Provide a direct, factual answer to the user's question. Limit your response to a maximum of 4-5 sentences. Use Google Search grounding for medical/factual queries.".

(** [newHistory]: the new turn alone, behind the history when there
    is no custom prompt. *)
Definition newHistory (chatInput : string) (chatHistory : list ChatMessage)
    (customPrompt : option string) : list ChatMessage :=
  let userPrompt :=
    if truthy_opt customPrompt then token_text customPrompt else chatInput in
  let newHistory := [userTurn userPrompt] in
  if negb (truthy_opt customPrompt) then chatHistory ++ newHistory
  else newHistory.

Definition payload (newHistory : list ChatMessage) (isFitQuery : bool)
  : GeminiPayload :=
  {| contents := newHistory;
     tools := if negb isFitQuery then Some [GoogleSearch] else None;
     systemInstruction := systemPrompt isFitQuery |}.

(** [setChatHistory(prev => [...prev, entry])] *)
Definition appendChat (entry : ChatMessage) (st : AppState) : AppState :=
  setChatHistory (chatHistory st ++ [entry]) st.

(** [({ uri: attribution.web?.uri, title: attribution.web?.title })] *)
Definition attribution_source (attribution : jsval) : JsError + Source :=
  match Js.get h attribution (Field P_web),
        Js.get h attribution (Field P_web) with
  | inr web1, inr web2 =>
      inr (mkSource (Js.opt web1 (Field P_uri)) (Js.opt web2 (Field P_title)))
  | inl e, _ | _, inl e => inl e
  end.

(** [xs.map(f)] for an [f] that may throw: the first error ends it. *)
Fixpoint map_throwing {A B : Type} (f : A -> JsError + B) (xs : list A)
  : JsError + list B :=
  match xs with
  | [] => inr []
  | x :: rest =>
      match f x with
      | inl e => inl e
      | inr y =>
          match map_throwing f rest with
          | inl e => inl e
          | inr ys => inr (y :: ys)
          end
      end
  end.

(** [groundingAttributions.map(...).filter(...)]: only an array has a
    [map] to call. *)
Definition attributions_sources (groundingAttributions : jsval)
  : JsError + list Source :=
  match groundingAttributions with
  | JArr items =>
      match map_throwing attribution_source items with
      | inl e => inl e
      | inr all =>
          inr (List.filter
                 (fun source => Js.truthy (uri source) && Js.truthy (title source))
                 all)
      end
  | _ => inl (mkError (engine_message h (NotAFunction groundingAttributions)))
  end.

(** [sources]: empty unless the candidate has grounding attributions. *)
Definition candidate_sources (candidate : jsval) : JsError + list Source :=
  match Js.get h candidate (Field P_groundingMetadata) with
  | inl e => inl e
  | inr groundingMetadata =>
      if Js.truthy groundingMetadata then
        match Js.get h groundingMetadata (Field P_groundingAttributions) with
        | inl e => inl e
        | inr attributions =>
            if Js.truthy attributions then attributions_sources attributions
            else inr []
        end
      else inr []
  end.

(** The entry of the [else] branch, and the entry of the [catch]. *)
Definition contentError : ChatMessage :=
  let errorText := "Model response error: Could not generate content." in
  mkChat Model (JStr errorText) None.

Definition connectError (error : JsError) : ChatMessage :=
  let errorText :=
    "Failed to connect to AI: " +:+ error_message error +:+ "." in
  mkChat Model (JStr errorText) None.

(** The body of the [try] block after [response.json()] resolved. *)
Definition settle_reply (result : jsval) : Task unit :=
  candidates ← Async.lift (Js.get h result (Field P_candidates));
  let candidate := Js.opt candidates (Index 0) in
  hasText ←
    (if Js.truthy candidate then
       content ← Async.lift (Js.get h candidate (Field P_content));
       Return (Js.truthy
         (Js.opt (Js.opt (Js.opt content (Field P_parts)) (Index 0))
            (Field P_text)))
     else Return false : Task bool);
  if (hasText : bool) then
    content ← Async.lift (Js.get h candidate (Field P_content));
    parts ← Async.lift (Js.get h content (Field P_parts));
    part ← Async.lift (Js.get h parts (Index 0));
    text ← Async.lift (Js.get h part (Field P_text));
    sources ← Async.lift (candidate_sources candidate);
    Async.set (appendChat (mkChat Model text (Some sources)))
  else
    Async.set (appendChat contentError).

Definition handleGeminiQuery (chatInput : string)
    (chatHistory : list ChatMessage)
    (customPrompt : option string) (isFitQuery : bool) : Task unit :=
  if JsString.trim_is_empty chatInput && negb (truthy_opt customPrompt)
  then Return tt
  else
    let newHistory := newHistory chatInput chatHistory customPrompt in
    Async.set (setChatHistory newHistory);;
    Async.set (setChatInput EmptyString);;
    Async.set (setIsChatLoading true);;
    let payload := payload newHistory isFitQuery in
    Async.try_finally
      (Async.try_catch
         (response ← Async.await_fetch (GeminiGenerate payload);
          result ← Async.lift (json response);
          settle_reply result)
         (fun error => Async.set (appendChat (connectError error))))
      (Async.set (setIsChatLoading false)).

(** [`Yesterday, the user took exactly ${steps.toLocaleString()} steps. ...`] *)
Definition stepsPrompt (steps : jsval) : string :=
  "Yesterday, the user took exactly " +:+ toLocaleString h steps
    +:+ " steps. Please provide an assessment and feedback based on this activity level.".

(** The guard [steps > 0 || steps === 0]. *)
Definition stepsGuard (steps : jsval) : bool :=
  Js.gt_zero h steps || Js.is_zero steps.

Definition handleAssessSteps (googleAccessToken : option string)
    (chatInput : string) (chatHistory : list ChatMessage) : Task unit :=
  steps ← fetchSteps googleAccessToken;
  if stepsGuard steps then
    let prompt := stepsPrompt steps in
    Async.set (setActiveTab TabChat);;
    handleGeminiQuery chatInput chatHistory (Some prompt) true
  else Return tt.

End Handlers.

(** ** Medication reminders *)

(** [userMedicationsCollectionRef]: [null] while there is no user. *)
Definition userMedicationsCollectionRef (appId : string)
    (userId : option string) : option CollectionRef :=
  if negb (truthy_opt userId) then None
  else Some (mkRef appId (token_text userId)).

(** [handleSubmit] of [MedicationForm], with the form's [name], [dose]
    and [time] and the collection of the current render; the test
    [!userMedicationsCollectionRef] of the source is the case [None]. *)
Definition handleSubmit (name dose time : string)
    (collectionRef : option CollectionRef) : Task unit :=
  match collectionRef with
  | Some c =>
      if negb (JsString.truthy name) || negb (JsString.truthy dose)
         || negb (JsString.truthy time)
      then
        Async.set (setMessage (Some (mkMessage MsgError "All fields are required.")))
      else
        Async.try_catch
          (Async.await_store
             (AddDoc c {| new_name := name; new_dose := dose; new_time := time;
                          new_isTaken := false;
                          new_createdAt := ServerTimestamp |});;
           Async.set (setFormName EmptyString);;
           Async.set (setFormDose EmptyString);;
           Async.set (setFormTime EmptyString))
          (fun error =>
             Async.set (setMessage (Some (mkMessage MsgError
               "Failed to add medication. See console for details."))))
  | None =>
      Async.set (setMessage (Some (mkMessage MsgError "All fields are required.")))
  end.

Definition handleToggleTaken (collectionRef : option CollectionRef)
    (id : string) (isTaken : bool) : Task unit :=
  match collectionRef with
  | None => Return tt
  | Some c =>
      Async.try_catch
        (Async.await_store (UpdateDoc c id (negb isTaken)))
        (fun error =>
           Async.set (setMessage (Some (mkMessage MsgError
             "Failed to update status. See console."))))
  end.

Definition handleDelete (collectionRef : option CollectionRef) (id : string)
  : Task unit :=
  match collectionRef with
  | None => Return tt
  | Some c =>
      Async.try_catch
        (Async.await_store (DeleteDoc c id))
        (fun error =>
           Async.set (setMessage (Some (mkMessage MsgError
             "Failed to delete item. See console."))))
  end.

(** ** The document store *)

(** Modelled from the spec: the remote document store, which the source
    reaches through [addDoc], [updateDoc], [deleteDoc] and [onSnapshot]
    of the Firestore client.  After the spec (sections 4.1 and 6) a
    document has the fields name, dose, time, isTaken and createdAt; a
    create adds one document under a new identifier with the creation
    time assigned by the server, toggle and delete address a document by
    its identifier, and the live subscription delivers the full list
    ordered by createdAt, newest first. *)
Module Firestore.

Record Doc : Type := mkDoc {
  doc_name : string;
  doc_dose : string;
  doc_time : string;
  doc_isTaken : bool;
  doc_createdAt : Z
}.

Definition set_isTaken (b : bool) (d : Doc) : Doc :=
  {| doc_name := doc_name d; doc_dose := doc_dose d;
     doc_time := doc_time d; doc_isTaken := b;
     doc_createdAt := doc_createdAt d |}.

Definition create (d : NewMedication) (server_time : Z) : Doc :=
  {| doc_name := new_name d; doc_dose := new_dose d;
     doc_time := new_time d; doc_isTaken := new_isTaken d;
     doc_createdAt := match new_createdAt d with
                      | ServerTimestamp => server_time
                      end |}.

(** What the store answers to a request on the collection [coll], and
    the collection afterwards; [new_id] and [server_time] are the
    identifier and the time the store would give a new document. *)
Definition commit (new_id : string) (server_time : Z) (req : StoreRequest)
    (coll : gmap string Doc) : StoreOutcome * gmap string Doc :=
  match req with
  | AddDoc _ d => (StoreResolved, <[new_id := create d server_time]> coll)
  | UpdateDoc _ id b =>
      match coll !! id with
      | Some d => (StoreResolved, <[id := set_isTaken b d]> coll)
      | None => (StoreRejected (mkError "No document to update"), coll)
      end
  | DeleteDoc _ id => (StoreResolved, delete id coll)
  end.

Definition record (entry : string * Doc) : Medication :=
  {| med_id := entry.1;
     med_name := doc_name entry.2; med_dose := doc_dose entry.2;
     med_time := doc_time entry.2; med_isTaken := doc_isTaken entry.2;
     med_createdAt := doc_createdAt entry.2 |}.

Definition newest_first (a b : Medication) : Prop :=
  med_createdAt b ≤ med_createdAt a.

#[global] Instance newest_first_dec a b : Decision (newest_first a b).
Proof. unfold newest_first. apply _. Defined.

(** [snapshot.docs.map(doc => ({ id: doc.id, ...doc.data() }))] *)
Definition snapshot (coll : gmap string Doc) : list Medication :=
  merge_sort newest_first (record <$> map_to_list coll).

End Firestore.

(** The callback of [onSnapshot]: [setMedications(meds)]. *)
Definition onSnapshot (coll : gmap string Firestore.Doc) (st : AppState)
  : AppState :=
  setMedications (Firestore.snapshot coll) st.

(** What lies outside the component in one step of the world: the
    clock, the answers to [fetch], and the identifier and time the
    store gives a new document. *)
Record Remote : Type := mkRemote {
  remote_now : Z;
  remote_fetch : HttpRequest -> FetchOutcome;
  new_id : string;
  server_time : Z
}.

(** A world in which the store answers from the collection [coll]. *)
Definition store_env (r : Remote) (coll : gmap string Firestore.Doc) : Env :=
  {| now := remote_now r; fetch := remote_fetch r;
     store := fun req =>
       (Firestore.commit (new_id r) (server_time r) req coll).1 |}.

(** The collection after the store has carried out the calls of a run. *)
Definition committed (r : Remote) (cs : list Call)
    (coll : gmap string Firestore.Doc) : gmap string Firestore.Doc :=
  foldl (fun coll c =>
           match c with
           | CallStore req =>
               (Firestore.commit (new_id r) (server_time r) req coll).2
           | CallFetch _ => coll
           end) coll cs.

(** The component together with its collection in the store. *)
Record World : Type := mkWorld {
  app : AppState;
  collection : gmap string Firestore.Doc
}.

(** A handler runs against the store, the store carries out what the
    handler asked for, and the subscription delivers the new list. *)
Definition world_step {R : Type} (r : Remote) (t : Task R) (w : World)
  : World :=
  let o := run (store_env r (collection w)) t (app w) in
  let coll := committed r (calls o) (collection w) in
  {| app := onSnapshot coll (final o); collection := coll |}.

(** The handler behind the toggle button of the record [med] of the
    synced list: [onClick={() => handleToggleTaken(med.id, med.isTaken)}]. *)
Definition toggle_click (collectionRef : option CollectionRef)
    (med : Medication) : Task unit :=
  handleToggleTaken collectionRef (med_id med) (med_isTaken med).

(** ** Notions used in the statements *)

(** The value at a path of member selectors, [v.a[0].b ...], when every
    link of the path is there: neither [undefined] nor [null]. *)
Fixpoint path_value (path : list key) (v : jsval) : option jsval :=
  if Js.nullish v then None
  else match path with
       | [] => Some v
       | k :: rest => path_value rest (Js.member v k)
       end.

(** [bucket[0].dataset[0].point[0].value[0].intVal] *)
Definition steps_path : list key :=
  [Field P_bucket; Index 0; Field P_dataset; Index 0; Field P_point; Index 0;
   Field P_value; Index 0; Field P_intVal].

(** [candidates[0].content.parts[0].text] *)
Definition reply_path : list key :=
  [Field P_candidates; Index 0; Field P_content; Field P_parts; Index 0;
   Field P_text].

(** The bodies of the aggregate requests among the calls of a run, and
    the bodies of the generate-content requests. *)
Definition aggregate_bodies (cs : list Call) : list AggregateRequest :=
  omap (fun c => match c with
                 | CallFetch (FitAggregate _ body) => Some body
                 | _ => None
                 end) cs.

Definition gemini_payloads (cs : list Call) : list GeminiPayload :=
  omap (fun c => match c with
                 | CallFetch (GeminiGenerate p) => Some p
                 | _ => None
                 end) cs.

(** The step fetch failed: no token, a rejected request, or a status
    outside 200 to 299 (401 among them). *)
Definition fetch_failed (googleAccessToken : option string) (env : Env) : bool :=
  negb (truthy_opt googleAccessToken)
  || match fetch env (FitAggregate (token_text googleAccessToken)
                        (requestBody (now env))) with
     | FetchRejected _ => true
     | FetchResolved r => negb (ok r)
     end.

(** A transcript entry the program makes up when a request fails. *)
Definition synthetic_error (entry : ChatMessage) : Prop :=
  role entry = Model /\ sources entry = None /\
  (text entry = JStr "Model response error: Could not generate content."
   \/ exists m, text entry = JStr ("Failed to connect to AI: " +:+ m +:+ ".")).

(** A transcript entry that carries the reply found in [result]. *)
Definition reply_of (result : jsval) (entry : ChatMessage) : Prop :=
  role entry = Model /\ path_value reply_path result = Some (text entry) /\
  Js.truthy (text entry) = true /\ is_Some (sources entry).

(** What the entry is that a settled model request leaves in the
    transcript: the connection error after a rejected request or a body
    that is no JSON; otherwise the reply or a made-up error, the latter
    when the content is missing, the former when the text is there and
    reading the citations does not throw. *)
Definition settled_entry (h : Host) (o : FetchOutcome) (entry : ChatMessage)
  : Prop :=
  match o with
  | FetchRejected e => entry = connectError e
  | FetchResolved r =>
      match json r with
      | inl e => entry = connectError e
      | inr result =>
          (reply_of result entry \/ synthetic_error entry)
          /\ (path_value reply_path result = None -> synthetic_error entry)
          /\ (forall t candidate cited,
                path_value reply_path result = Some t ->
                Js.truthy t = true ->
                path_value [Field P_candidates; Index 0] result = Some candidate ->
                candidate_sources h candidate = inr cited ->
                entry = mkChat Model t (Some cited))
      end
  end.

(** [candidates[0].groundingMetadata.groundingAttributions] *)
Definition attributions_path : list key :=
  [Field P_candidates; Index 0; Field P_groundingMetadata;
   Field P_groundingAttributions].

(** The citation an attribution stands for: its [web.uri] and
    [web.title], when both are there and neither is empty. *)
Definition citation (attribution : jsval) : option Source :=
  match path_value [Field P_web; Field P_uri] attribution,
        path_value [Field P_web; Field P_title] attribution with
  | Some u, Some t =>
      if Js.truthy u && Js.truthy t then Some (mkSource u t) else None
  | _, _ => None
  end.

(** The citations of a response, in the order of its attributions:
    none when it has no attributions, and no answer ([None]) when its
    attributions cannot be read as a list of attributions, which is when
    they are something other than an array (and not a falsy value, which
    counts as no attributions) or an array with a [null] or [undefined]
    in it. *)
Definition citations (result : jsval) : option (list Source) :=
  match path_value attributions_path result with
  | None => Some []
  | Some (JArr items) =>
      if forallb (fun a => negb (Js.nullish a)) items
      then Some (omap citation items)
      else None
  | Some v => if Js.truthy v then None else Some []
  end.

(** What the entry is that a settled model request leaves in the
    transcript, told from the response alone: the reply text with the
    citations of the response when the text is there, not empty, and the
    citations can be read; a made-up error entry otherwise, which names
    the error after a rejected request or a body that is no JSON. *)
Definition settles_as (o : FetchOutcome) (entry : ChatMessage) : Prop :=
  match o with
  | FetchRejected e =>
      entry = mkChat Model
                (JStr ("Failed to connect to AI: " +:+ error_message e +:+ "."))
                None
  | FetchResolved r =>
      match json r with
      | inl e =>
          entry = mkChat Model
                    (JStr ("Failed to connect to AI: " +:+ error_message e +:+ "."))
                    None
      | inr result =>
          match path_value reply_path result, citations result with
          | Some t, Some cited =>
              if Js.truthy t then entry = mkChat Model t (Some cited)
              else synthetic_error entry
          | _, _ => synthetic_error entry
          end
      end
  end.

(** The state once a model request has settled with [entry]: the new
    history was set, the input cleared, and the entry appended. *)
Definition after_query (newHistory : list ChatMessage) (entry : ChatMessage)
    (st : AppState) : AppState :=
  setIsChatLoading false
    (appendChat entry
       (setIsChatLoading true
          (setChatInput EmptyString (setChatHistory newHistory st)))).

(** [isTaken] of a record of the synced list, set to [b]. *)
Definition with_isTaken (b : bool) (med : Medication) : Medication :=
  {| med_id := med_id med; med_name := med_name med; med_dose := med_dose med;
     med_time := med_time med; med_isTaken := b;
     med_createdAt := med_createdAt med |}.

(** The outcome of a run that went on with a second run. *)
Definition followed_by {A B : Type} (o1 : Outcome A) (o2 : Outcome B)
  : Outcome B :=
  mkOutcome (completion o2) (final o2) (calls o1 ++ calls o2).

(** A run that ended with the error [e], seen at another result type. *)
Definition failed_with {A B : Type} (o : Outcome A) (e : JsError) : Outcome B :=
  mkOutcome (inl e) (final o) (calls o).

(** The window of the prior UTC calendar day, from midnight to
    midnight, for the clock reading [now]. *)
Definition prior_utc_day (now : Z) (body : AggregateRequest) : Prop :=
  startTimeMillis body = now / 86400000 * 86400000 - 86400000
  /\ endTimeMillis body = now / 86400000 * 86400000.

(** Values for the examples. *)
Module Example.

Definition token : option string := Some "ya29.a0AfH6SMB".

(** 14 November 2023, 22:13:20 UTC *)
Definition clock : Z := 1700000000000.

Definition offline : Env :=
  {| now := clock;
     fetch := fun _ => FetchRejected (mkError "Failed to fetch");
     store := fun _ => StoreResolved |}.

(** The body of a Fitness response with [v] at
    [bucket[0].dataset[0].point[0].value[0].intVal]. *)
Definition fit_body (v : jsval) : jsval :=
  JObj [("bucket", JArr [JObj [("dataset", JArr [JObj [("point",
    JArr [JObj [("value", JArr [JObj [("intVal", v)]])]])]])]])].

(** The body of a model response with the text [t] and no citation. *)
Definition reply_body (t : string) : jsval :=
  JObj [("candidates", JArr [JObj [("content",
    JObj [("parts", JArr [JObj [("text", JStr t)]])])]])].

(** A world that answers the Fitness request with status [code] and
    the body [fit], and the model request with the body [reply]. *)
Definition online (code : Z) (fit reply : jsval) : Env :=
  {| now := clock;
     fetch := fun req =>
       match req with
       | FitAggregate _ _ => FetchResolved (mkResponse code "status" (inr fit))
       | GeminiGenerate _ => FetchResolved (mkResponse 200 "OK" (inr reply))
       end;
     store := fun _ => StoreResolved |}.

(** A user's collection, one reminder in it, and the world around. *)
Definition ref : CollectionRef := mkRef "default-app-id" "user-1".

Definition aspirin : Firestore.Doc :=
  Firestore.mkDoc "Aspirin" "500mg" "08:00" false 1699990000000.

Definition reminders : gmap string Firestore.Doc := {[ "med-1" := aspirin ]}.

Definition world : World :=
  {| app := onSnapshot reminders initial_state; collection := reminders |}.

Definition remote : Remote :=
  {| remote_now := clock;
     remote_fetch := fun _ => FetchRejected (mkError "Failed to fetch");
     new_id := "med-2";
     server_time := clock |}.

(** A transcript of one earlier exchange. *)
Definition transcript : list ChatMessage :=
  [ userTurn "Is green tea healthy?";
    mkChat Model (JStr "In moderation, yes.") (Some []) ].

End Example.

(** The transcript [hist] is kept by a run: it is still the beginning
    of the transcript afterwards, and every model request of the run
    carries it in front of one new turn. *)
Definition transcript_kept (hist : list ChatMessage) (o : Outcome unit) : Prop :=
  (exists added, chatHistory (final o) = hist ++ added)
  /\ (forall p, p ∈ gemini_payloads (calls o) ->
        exists turn, contents p = hist ++ [turn]).

(** The character [c] occurs in [s]. *)
Fixpoint occurs (c : ascii) (s : string) : bool :=
  match s with
  | EmptyString => false
  | String x r => Ascii.eqb x c || occurs c r
  end.

(** ** The rest of the component *)

Definition setUserId (v : option string) (st : AppState) : AppState :=
  {| userId := v;
     isAuthReady := isAuthReady st;
     medications := medications st;
     chatHistory := chatHistory st;
     chatInput := chatInput st;
     isChatLoading := isChatLoading st;
     activeTab := activeTab st;
     message := message st;
     googleAccessToken := googleAccessToken st;
     stepCount := stepCount st;
     isFitLoading := isFitLoading st;
     formName := kept (same_opt String.eqb v (userId st)) (formName st);
     formDose := kept (same_opt String.eqb v (userId st)) (formDose st);
     formTime := kept (same_opt String.eqb v (userId st)) (formTime st) |}.

Definition setIsAuthReady (v : bool) (st : AppState) : AppState :=
  {| userId := userId st;
     isAuthReady := v;
     medications := medications st;
     chatHistory := chatHistory st;
     chatInput := chatInput st;
     isChatLoading := isChatLoading st;
     activeTab := activeTab st;
     message := message st;
     googleAccessToken := googleAccessToken st;
     stepCount := stepCount st;
     isFitLoading := isFitLoading st;
     formName := kept (Bool.eqb v (isAuthReady st)) (formName st);
     formDose := kept (Bool.eqb v (isAuthReady st)) (formDose st);
     formTime := kept (Bool.eqb v (isAuthReady st)) (formTime st) |}.

(** The listener given to [onAuthStateChanged]; [user] is the [uid] of
    the signed-in user, [None] for [null]. *)
Definition authStateChanged (user : option string) (st : AppState) : AppState :=
  setIsAuthReady true (setUserId user st).

(** The client identifier the source ships with. *)
Definition GOOGLE_CLIENT_ID : string := "YOUR_GOOGLE_FIT_CLIENT_ID".

(** [authUrl], for the client identifier [client_id] and the origin of
    the page as [redirectUri]. *)
Definition authUrl (client_id redirectUri : string) : string :=
  "https://accounts.google.com/o/oauth2/v2/auth?"
  +:+ ("client_id=" +:+ client_id +:+ "&")
  +:+ ("redirect_uri=" +:+ redirectUri +:+ "&")
  +:+ "response_type=token&"
  +:+ "scope=https://www.googleapis.com/auth/fitness.activity.read&"
  +:+ "state=google-fit-connect".

(** [handleGoogleSignIn], with the value of [GOOGLE_CLIENT_ID] and of
    [window.location.origin]: the state afterwards, and the address the
    browser is sent to, if any. *)
Definition handleGoogleSignIn (client_id origin : string) (st : AppState)
  : AppState * option string :=
  if String.eqb client_id "YOUR_GOOGLE_FIT_CLIENT_ID" then
    (setMessage (Some (mkMessage MsgError
       "ERROR: Please replace YOUR_GOOGLE_FIT_CLIENT_ID in the code with your actual Client ID."))
       st,
     None)
  else
    let redirectUri := origin in
    (st, Some (authUrl client_id redirectUri)).

(** What the tabs show and disable: the connect button is shown for
    [!googleAccessToken]; the chat submit button is disabled for
    [isChatLoading || !chatInput.trim()]. *)
Definition connect_shown (st : AppState) : bool :=
  negb (truthy_opt (googleAccessToken st)).

Definition chat_submit_disabled (st : AppState) : bool :=
  isChatLoading st || JsString.trim_is_empty (chatInput st).

(** What can happen to the mounted component: the effects and listeners
    it registers, and the controls it renders.  A handler comes with the
    world that answers it and with the values it captured from the
    render that created it. *)
Inductive Event : Type :=
| Mounted (w : Window)
| AuthStateChanged (user : option string)
| SnapshotArrived (coll : gmap string Firestore.Doc)
| ClickConnect (origin : string)
| ClickFetchSteps (env : Env) (googleAccessToken : option string)
| ClickFeedback (env : Env) (googleAccessToken : option string)
    (chatInput : string) (chatHistory : list ChatMessage)
| SubmitChat (env : Env) (chatInput : string) (chatHistory : list ChatMessage)
| ChangeChatInput (value : string)
| SelectTab (tab : Tab)
| CloseMessage
| ChangeName (value : string)
| ChangeDose (value : string)
| ChangeTime (value : string)
| SubmitMedication (env : Env) (name dose time : string)
    (collectionRef : option CollectionRef)
| ClickToggle (env : Env) (collectionRef : option CollectionRef)
    (id : string) (isTaken : bool)
| ClickDelete (env : Env) (collectionRef : option CollectionRef) (id : string).

(** The state after an event, for the host [h] and the client
    identifier [client_id]. *)
Definition react (h : Host) (client_id : string) (ev : Event) (st : AppState)
  : AppState :=
  match ev with
  | Mounted w => (oauth_redirect_effect w st).2
  | AuthStateChanged user => authStateChanged user st
  | SnapshotArrived coll => onSnapshot coll st
  | ClickConnect origin => (handleGoogleSignIn client_id origin st).1
  | ClickFetchSteps env tok => final (run env (fetchSteps h tok) st)
  | ClickFeedback env tok input hist =>
      final (run env (handleAssessSteps h tok input hist) st)
  | SubmitChat env input hist =>
      final (run env (handleGeminiQuery h input hist None false) st)
  | ChangeChatInput value => setChatInput value st
  | SelectTab tab => setActiveTab tab st
  | CloseMessage => setMessage None st
  | ChangeName value => setFormName value st
  | ChangeDose value => setFormDose value st
  | ChangeTime value => setFormTime value st
  | SubmitMedication env name dose time collectionRef =>
      final (run env (handleSubmit name dose time collectionRef) st)
  | ClickToggle env collectionRef id isTaken =>
      final (run env (handleToggleTaken collectionRef id isTaken) st)
  | ClickDelete env collectionRef id =>
      final (run env (handleDelete collectionRef id) st)
  end.

(** ** Notions used in the further statements *)

(** Every state update a task can perform has the property [Q],
    whatever the awaited calls settle to. *)
Fixpoint every_update {R : Type} (Q : (AppState -> AppState) -> Prop)
    (t : Task R) : Prop :=
  match t with
  | Return _ | Throw _ => True
  | SetState f k => Q f /\ every_update Q k
  | DateNow k => forall now, every_update Q (k now)
  | Fetch _ k => forall o, every_update Q (k o)
  | Store _ k => forall o, every_update Q (k o)
  end.

(** The update [f] leaves the part [part] of the state as it is. *)
Definition keeps {A : Type} (part : AppState -> A)
    (f : AppState -> AppState) : Prop :=
  forall st, part (f st) = part st.

(** The cells of [App] without those of the chat, without those of the
    Fit tab (and the notice), and without the notice.  The cells of the
    form are in none of the three: any update of [App] mounts the form
    anew. *)
Definition outside_chat (st : AppState) :=
  (userId st, isAuthReady st, medications st, activeTab st, message st,
   googleAccessToken st, stepCount st, isFitLoading st).

Definition outside_fit (st : AppState) :=
  (userId st, isAuthReady st, medications st, chatHistory st, chatInput st,
   isChatLoading st, activeTab st).

Definition outside_form (st : AppState) :=
  (userId st, isAuthReady st, medications st, chatHistory st, chatInput st,
   isChatLoading st, activeTab st, googleAccessToken st, stepCount st,
   isFitLoading st).

(** The update [f] does not put a token where there is none. *)
Definition never_sets_token (f : AppState -> AppState) : Prop :=
  forall st, googleAccessToken st = None -> googleAccessToken (f st) = None.

(** The state after a sequence of events, from the state of a freshly
    mounted component. *)
Definition after_events (h : Host) (client_id : string) (events : list Event)
  : AppState :=
  foldl (fun st ev => react h client_id ev st) initial_state events.

(** The failures of the aggregate request that end in the [catch] block
    of [fetchSteps], each with the error the block receives: a rejected
    request, a status outside 200 to 299 other than 401, a body that is
    no JSON, and the body [null], of which [bucket] cannot be read. *)
Inductive fit_failure (h : Host) : FetchOutcome -> JsError -> Prop :=
| fit_rejected e : fit_failure h (FetchRejected e) e
| fit_bad_status r :
    ok r = false -> status r <> 401 ->
    fit_failure h (FetchResolved r)
      (mkError ("Google Fit API error: " +:+ statusText r))
| fit_bad_json r e :
    ok r = true -> json r = inl e -> fit_failure h (FetchResolved r) e
| fit_null_body r data :
    ok r = true -> json r = inr data -> Js.nullish data = true ->
    fit_failure h (FetchResolved r)
      (mkError (engine_message h (ReadOfNullish data (Field P_bucket)))).

(** A model response whose text is there and whose only grounding
    attribution is [null]. *)
Definition uncitable_body : jsval :=
  JObj [("candidates", JArr [JObj
    [("content", JObj [("parts", JArr [JObj [("text", JStr "Drink water.")]])]);
     ("groundingMetadata", JObj [("groundingAttributions", JArr [JNull])])]])].

(** A model response with a text and two grounding attributions, of
    which the second has no title. *)
Definition cited_body : jsval :=
  JObj [("candidates", JArr [JObj
    [("content", JObj [("parts", JArr [JObj [("text", JStr "Drink water.")]])]);
     ("groundingMetadata", JObj [("groundingAttributions", JArr
        [JObj [("web", JObj [("uri", JStr "https://example.org/water");
                             ("title", JStr "Water")])];
         JObj [("web", JObj [("uri", JStr "https://example.org/untitled")])]])])]])].

(** A space, a tab or a line break of ASCII. *)
Definition plain_space (c : ascii) : bool :=
  match N_of_ascii c with
  | (9 | 10 | 11 | 12 | 13 | 32)%N => true
  | _ => false
  end.

Fixpoint all_plain_space (s : string) : bool :=
  match s with
  | EmptyString => true
  | String c r => plain_space c && all_plain_space r
  end.

(** A citation the chat can show: [source.uri && source.title]. *)
Definition shown_source (source : Source) : Prop :=
  Js.truthy (uri source) = true /\ Js.truthy (title source) = true.

(** A character that an address carries as it is and that has no
    meaning of its own in a query: a letter or a digit of ASCII, or one
    of [- . / : _ ~].  The characters that end the query ([#]), cut it
    into parameters ([&]) or are escapes in it ([+], [%]) are not among
    them, nor is any character that the browser would drop or escape. *)
Definition url_plain (c : ascii) : bool :=
  let n := N_of_ascii c in
  ((45 <=? n) && (n <=? 58) || (65 <=? n) && (n <=? 90) || (n =? 95)
   || (97 <=? n) && (n <=? 122) || (n =? 126))%N.

Fixpoint query_safe (s : string) : bool :=
  match s with
  | EmptyString => true
  | String c r => url_plain c && query_safe r
  end.

(** The query of an address: what stands between its first [?] and the
    [#] that starts the fragment, when there is one. *)
Definition url_query (url : string) : string :=
  let before_fragment := (JsString.cut_first "#"%char url).1 in
  default EmptyString (JsString.cut_first "?"%char before_fragment).2.

(** * Properties *)

(** ** Running composed tasks *)

Lemma run_Task_bind {A B : Type} env (t : Task A) (f : A -> Task B) st :
  run env (Async.bind t f) st =
    match completion (run env t st) with
    | inl e => failed_with (run env t st) e
    | inr a => followed_by (run env t st) (run env (f a) (final (run env t st)))
    end.
Proof.
  revert st.
  induction t as [a|e|u k IH|k IH|req k IH|req k IH]; intros st; simpl.
  - unfold followed_by. simpl. by destruct (run env (f a) st).
  - reflexivity.
  - apply IH.
  - apply IH.
  - rewrite IH. by destruct (completion (run env (k (fetch env req)) st)).
  - rewrite IH. by destruct (completion (run env (k (store env req)) st)).
Qed.

Lemma run_bind {A B : Type} env (t : Task A) (f : A -> Task B) st :
  run env (t ≫= f) st =
    match completion (run env t st) with
    | inl e => failed_with (run env t st) e
    | inr a => followed_by (run env t st) (run env (f a) (final (run env t st)))
    end.
Proof. apply run_Task_bind. Qed.

Lemma run_try_catch {A : Type} env (t : Task A) handler st :
  run env (Async.try_catch t handler) st =
    match completion (run env t st) with
    | inl e =>
        followed_by (run env t st) (run env (handler e) (final (run env t st)))
    | inr _ => run env t st
    end.
Proof.
  revert st.
  induction t as [a|e|u k IH|k IH|req k IH|req k IH]; intros st; simpl.
  - reflexivity.
  - unfold followed_by. simpl. by destruct (run env (handler e) st).
  - apply IH.
  - apply IH.
  - rewrite IH. by destruct (completion (run env (k (fetch env req)) st)).
  - rewrite IH. by destruct (completion (run env (k (store env req)) st)).
Qed.

Lemma run_try_finally {A : Type} env (t : Task A) fin st :
  run env (Async.try_finally t fin) st =
    match completion (run env fin (final (run env t st))) with
    | inl e =>
        failed_with
          (followed_by (run env t st) (run env fin (final (run env t st)))) e
    | inr _ =>
        mkOutcome (completion (run env t st))
          (final (run env fin (final (run env t st))))
          (calls (run env t st) ++ calls (run env fin (final (run env t st))))
    end.
Proof.
  revert st.
  induction t as [a|e|u k IH|k IH|req k IH|req k IH]; intros st; simpl.
  - rewrite run_Task_bind.
    destruct (completion (run env fin st));
      unfold followed_by, failed_with; simpl; by rewrite ?app_nil_r.
  - rewrite run_Task_bind.
    destruct (completion (run env fin st));
      unfold followed_by, failed_with; simpl; by rewrite ?app_nil_r.
  - apply IH.
  - apply IH.
  - rewrite IH.
    by destruct (completion (run env fin (final (run env (k (fetch env req)) st)))).
  - rewrite IH.
    by destruct (completion (run env fin (final (run env (k (store env req)) st)))).
Qed.

(** ** The OAuth redirect *)

Lemma occurs_replace_all c d s :
  c <> d -> occurs c (JsString.replace_all c d s) = false.
Proof.
  intros Hcd. induction s as [|x r IH]; simpl; [done|].
  rewrite IH, orb_false_r.
  destruct (Ascii.eqb x c) eqn:Hx; [|done].
  apply Ascii.eqb_neq. congruence.
Qed.

Lemma occurs_substring1 c s :
  occurs c s = false -> occurs c (JsString.substring1 s) = false.
Proof. destruct s; simpl; [done|]. by intros [_ ?]%orb_false_iff. Qed.

Lemma occurs_split_on c d s :
  occurs c s = false ->
  Forall (fun p => occurs c p = false) (JsString.split_on d s).
Proof.
  induction s as [|x r IH]; simpl.
  - intros _. by repeat constructor.
  - intros [Hx Hr]%orb_false_iff. specialize (IH Hr).
    destruct (Ascii.eqb x d).
    + by constructor.
    + destruct (JsString.split_on d r) as [|p ps].
      * repeat constructor. simpl. by rewrite Hx.
      * inversion IH; subst. constructor; [|done].
        simpl. rewrite Hx. done.
Qed.

Lemma cut_first_absent c s :
  occurs c s = false -> JsString.cut_first c s = (s, None).
Proof.
  induction s as [|x r IH]; simpl; [done|].
  intros [Hx Hr]%orb_false_iff. rewrite Hx, (IH Hr). done.
Qed.

(** Where the init string has no [=], every entry has the empty value. *)
Lemma create_values_empty init :
  occurs "="%char init = false ->
  Forall (fun entry => entry.2 = EmptyString) (URLSearchParams.create init).
Proof.
  intros Hinit. unfold URLSearchParams.create, URLSearchParams.parse.
  set (input := if JsString.startsWith init "?" then _ else _).
  assert (Hinput : occurs "="%char input = false).
  { subst input. destruct (JsString.startsWith init "?"); [|done].
    by apply occurs_substring1. }
  apply Forall_forall. intros entry Hin%list_elem_of_In.
  apply in_map_iff in Hin as (piece & <- & Hpiece).
  apply filter_In in Hpiece as [Hpiece _].
  pose proof (occurs_split_on "="%char "&"%char input Hinput) as Hall.
  rewrite Forall_forall in Hall. specialize (Hall piece).
  unfold URLSearchParams.parse_piece.
  rewrite cut_first_absent; [done|].
  apply Hall. by apply list_elem_of_In.
Qed.

Lemma hash_params_values_empty w :
  Forall (fun entry => entry.2 = EmptyString) (hash_params w).
Proof.
  apply create_values_empty, occurs_replace_all. discriminate.
Qed.

(** The effect never finds a token it could accept: [accessToken] is
    [null] or the empty string, whatever the hash is. *)
Lemma hash_accessToken_falsy w : truthy_opt (hash_accessToken w) = false.
Proof.
  unfold hash_accessToken, find_param.
  destruct (List.find _ (hash_params w)) as [entry|] eqn:Hfind; [|done].
  apply find_some in Hfind as [Hin _].
  pose proof (hash_params_values_empty w) as Hall.
  rewrite Forall_forall in Hall.
  simpl. rewrite (Hall entry); [done|]. by apply list_elem_of_In.
Qed.

Lemma oauth_redirect_effect_inert w st : oauth_redirect_effect w st = (w, st).
Proof.
  unfold oauth_redirect_effect.
  destruct (JsString.truthy (location_hash w)); [|done].
  by rewrite hash_accessToken_falsy.
Qed.

(** C1, at the redirect that Google sends back: the fragment carries an
    access token and the expected state, yet the effect reads the whole
    fragment as one parameter name with an empty value, finds no state,
    and leaves the held token unset. *)
Theorem oauth_redirect_drops_token :
  let w := mkWindow
    "#access_token=ya29.a0AfH6SMB&token_type=Bearer&expires_in=3599&state=google-fit-connect" in
  hash_params w =
    [("access_token:ya29.a0AfH6SMB,token_type:Bearer,expires_in:3599,state:google-fit-connect",
      EmptyString)]
  /\ hash_accessToken w = Some EmptyString
  /\ hash_state w = None
  /\ oauth_redirect_effect w initial_state = (w, initial_state)
  /\ googleAccessToken (oauth_redirect_effect w initial_state).2 = None.
Proof. repeat split. Qed.

(** C7: when the [state] the effect reads from the fragment is not the
    constant [google-fit-connect], and also when it reads none, the effect
    changes nothing: the window and every cell of the state stay as they
    were, and the token of a freshly mounted component stays unset. *)
Theorem oauth_state_mismatch_changes_nothing (w : Window) (st : AppState) :
  hash_state w <> Some oauth_state ->
  oauth_redirect_effect w st = (w, st)
  /\ googleAccessToken (oauth_redirect_effect w initial_state).2 = None.
Proof.
  intros Hstate.
  assert (Hguard : state_matches (hash_state w) = false).
  { unfold state_matches. destruct (hash_state w) as [s|]; [|done].
    apply String.eqb_neq. congruence. }
  unfold oauth_redirect_effect.
  rewrite Hguard, andb_false_r.
  by destruct (JsString.truthy (location_hash w)).
Qed.

Lemma oauth_state_mismatch_witness :
  let w := mkWindow "#access_token=ya29.a0AfH6SMB&state=forged" in
  oauth_redirect_effect w initial_state = (w, initial_state)
  /\ googleAccessToken (oauth_redirect_effect w initial_state).2 = None.
Proof.
  apply (oauth_state_mismatch_changes_nothing
           (mkWindow "#access_token=ya29.a0AfH6SMB&state=forged") initial_state).
  vm_compute. discriminate.
Defined.

(** ** Fetching yesterday's steps *)

(** With a token, [fetchSteps] issues the aggregate request and then
    settles on what the request settled to. *)
Lemma run_fetchSteps_calls h tok env st :
  truthy_opt tok = true ->
  calls (run env (fetchSteps h tok) st) =
    [CallFetch (FitAggregate (token_text tok) (requestBody (now env)))].
Proof.
  intros Htok. unfold fetchSteps. rewrite Htok. simpl.
  destruct (fetch env _) as [e|r]; simpl; [done|].
  destruct (ok r); simpl.
  - destruct (json r) as [e|data]; simpl; [done|].
    by destruct (extract_steps h data).
  - by destruct (status r =? 401).
Qed.

(** C2, as stated, fails: for the clock reading 1700000000000 the window
    that [fetchSteps] requests is not the prior UTC day from midnight to
    midnight (its end is 1699919999999, one millisecond before midnight). *)
Lemma fetchSteps_window_not_midnight :
  exists body,
    aggregate_bodies
      (calls (run Example.offline (fetchSteps ExampleHost.host Example.token)
                initial_state)) = [body]
    /\ endTimeMillis body = 1699919999999
    /\ startTimeMillis body = 1699833599999
    /\ ~ prior_utc_day (now Example.offline) body.
Proof.
  eexists. split; [reflexivity|]. split; [reflexivity|]. split; [reflexivity|].
  intros [_ Hend]. vm_compute in Hend. discriminate.
Qed.

(** C2, amended: for every clock reading [now >= 0] the one request of
    [fetchSteps] ends with the last millisecond of the prior UTC
    calendar day, one millisecond before the latest UTC midnight,
    [endTimeMillis = floor(now / 86400000) * 86400000 - 1], and asks for
    buckets of one day.  (Where the window starts is left open here:
    the source takes the start one day before that end, which is
    neither of the two starts its comments name.) *)
Theorem fetchSteps_window h tok env st :
  truthy_opt tok = true ->
  0 <= now env ->
  exists body,
    aggregate_bodies (calls (run env (fetchSteps h tok) st)) = [body]
    /\ endTimeMillis body = now env / 86400000 * 86400000 - 1
    /\ bucketByTime_durationMillis body = 86400000.
Proof.
  intros Htok Hnow. rewrite run_fetchSteps_calls by done.
  eexists. split; [reflexivity|]. simpl.
  change oneDayMs with 86400000.
  rewrite Z.rem_mod_nonneg by lia.
  pose proof (Z.div_mod (now env) 86400000 ltac:(lia)).
  split; lia.
Qed.

Lemma fetchSteps_window_witness :
  exists body,
    aggregate_bodies
      (calls (run Example.offline (fetchSteps ExampleHost.host Example.token)
                initial_state)) = [body]
    /\ endTimeMillis body = now Example.offline / 86400000 * 86400000 - 1
    /\ bucketByTime_durationMillis body = 86400000.
Proof.
  apply (fetchSteps_window ExampleHost.host Example.token Example.offline
           initial_state).
  - reflexivity.
  - vm_compute. discriminate.
Defined.

(** C6: when the aggregate request is answered with status 401,
    [fetchSteps] returns 0, clears the held token, raises the reconnect
    notice, and leaves the displayed step count as it was; no other cell
    of [App] changes (the loading flag is back to false). *)
Theorem fetchSteps_unauthorized h tok env st r :
  truthy_opt tok = true ->
  fetch env (FitAggregate (token_text tok) (requestBody (now env)))
    = FetchResolved r ->
  status r = 401 ->
  let o := run env (fetchSteps h tok) st in
  completion o = inr (JNum 0)
  /\ googleAccessToken (final o) = None
  /\ message (final o) = Some (mkMessage MsgError
       "Google Fit token expired. Please reconnect to Google Fit.")
  /\ stepCount (final o) = stepCount st
  /\ final o =
       setIsFitLoading false
         (setGoogleAccessToken None
            (setMessage (Some (mkMessage MsgError
               "Google Fit token expired. Please reconnect to Google Fit."))
               (setIsFitLoading true st))).
Proof.
  intros Htok Hfetch Hstatus. unfold fetchSteps. rewrite Htok. simpl.
  rewrite Hfetch. simpl. unfold ok. rewrite Hstatus. simpl. done.
Qed.

Lemma fetchSteps_unauthorized_witness :
  let o := run (Example.online 401 JNull JNull)
             (fetchSteps ExampleHost.host Example.token)
             (setStepCount (Some (JNum 4321)) initial_state) in
  completion o = inr (JNum 0)
  /\ googleAccessToken (final o) = None
  /\ stepCount (final o) = Some (JNum 4321).
Proof.
  pose proof (fetchSteps_unauthorized ExampleHost.host Example.token
                (Example.online 401 JNull JNull)
                (setStepCount (Some (JNum 4321)) initial_state)
                (mkResponse 401 "status" (inr JNull))
                eq_refl eq_refl eq_refl) as (Hret & Htoken & _ & Hsteps & _).
  repeat split; assumption.
Defined.

(** A chain of optional member reads is the value at the path. *)
Lemma opt_chain_undefined path : foldl Js.opt JUndefined path = JUndefined.
Proof. induction path as [|k rest IH]; simpl; done. Qed.

Lemma path_value_cons k rest v :
  path_value (k :: rest) v =
    if Js.nullish v then None else path_value rest (Js.member v k).
Proof. reflexivity. Qed.

Lemma path_value_nil v :
  path_value [] v = if Js.nullish v then None else Some v.
Proof. reflexivity. Qed.

Lemma opt_chain_present path v x :
  path_value path v = Some x -> foldl Js.opt v path = x.
Proof.
  revert v. induction path as [|k rest IH]; intros v; simpl.
  - destruct (Js.nullish v); congruence.
  - unfold Js.opt. destruct (Js.nullish v); [done|]. apply IH.
Qed.

Lemma opt_chain_absent path v :
  path_value path v = None -> Js.nullish (foldl Js.opt v path) = true.
Proof.
  revert v. induction path as [|k rest IH]; intros v; simpl.
  - by destruct (Js.nullish v).
  - unfold Js.opt. destruct (Js.nullish v) eqn:Hv.
    + intros _. by rewrite opt_chain_undefined.
    + apply IH.
Qed.

Lemma nullish_falsy v : Js.nullish v = true -> Js.truthy v = false.
Proof. by destruct v. Qed.

Lemma or_number n : Js.or (JNum n) (JNum 0) = JNum n.
Proof.
  unfold Js.or. simpl. destruct (n =? 0) eqn:Hn; simpl; [|done].
  apply Z.eqb_eq in Hn. by subst.
Qed.

(** [extract_steps] reads the value at [steps_path]. *)
Lemma extract_steps_present h data x :
  path_value steps_path data = Some x ->
  extract_steps h data = inr (Js.or x (JNum 0)).
Proof.
  unfold steps_path. rewrite path_value_cons.
  unfold extract_steps, Js.get. destruct (Js.nullish data); [done|].
  intros Hpath%opt_chain_present. cbn [foldl] in Hpath.
  cbv zeta. by rewrite Hpath.
Qed.

Lemma extract_steps_absent h data :
  path_value steps_path data = None ->
  extract_steps h data = inr (JNum 0) \/ exists e, extract_steps h data = inl e.
Proof.
  unfold steps_path. rewrite path_value_cons.
  unfold extract_steps, Js.get. destruct (Js.nullish data); [eauto|].
  intros Hpath%opt_chain_absent%nullish_falsy. cbn [foldl] in Hpath.
  left. cbv zeta. unfold Js.or at 1. by rewrite Hpath.
Qed.

(** What [fetchSteps] returns and displays after a response with a
    success status and a body that parsed. *)
Lemma run_fetchSteps_ok h tok env st r data :
  truthy_opt tok = true ->
  fetch env (FitAggregate (token_text tok) (requestBody (now env)))
    = FetchResolved r ->
  ok r = true ->
  json r = inr data ->
  let steps := match extract_steps h data with
               | inr steps => steps
               | inl _ => JNum 0
               end in
  completion (run env (fetchSteps h tok) st) = inr steps
  /\ stepCount (final (run env (fetchSteps h tok) st)) = Some steps.
Proof.
  intros Htok Hfetch Hok Hjson. unfold fetchSteps. rewrite Htok. simpl.
  rewrite Hfetch. simpl. rewrite Hok, Hjson. simpl.
  by destruct (extract_steps h data).
Qed.

(** C5: after a response with a success status, [fetchSteps] returns (and
    displays) the integer at [bucket[0].dataset[0].point[0].value[0].intVal]
    when that path is there, and 0 when a link of the path is missing, in
    particular when [bucket] is the empty array. *)
Theorem fetchSteps_extracts h tok env st r data :
  truthy_opt tok = true ->
  fetch env (FitAggregate (token_text tok) (requestBody (now env)))
    = FetchResolved r ->
  ok r = true ->
  json r = inr data ->
  let o := run env (fetchSteps h tok) st in
  (forall n, path_value steps_path data = Some (JNum n) ->
     completion o = inr (JNum n) /\ stepCount (final o) = Some (JNum n))
  /\ (path_value steps_path data = None ->
        completion o = inr (JNum 0) /\ stepCount (final o) = Some (JNum 0))
  /\ (Js.member data (Field P_bucket) = JArr [] ->
        completion o = inr (JNum 0) /\ stepCount (final o) = Some (JNum 0)).
Proof.
  intros Htok Hfetch Hok Hjson o.
  pose proof (run_fetchSteps_ok h tok env st r data Htok Hfetch Hok Hjson)
    as Hrun. simpl in Hrun. fold o in Hrun.
  assert (Habsent : path_value steps_path data = None ->
            completion o = inr (JNum 0) /\ stepCount (final o) = Some (JNum 0)).
  { intros Hpath.
    destruct (extract_steps_absent h data Hpath) as [Hx|[e Hx]];
      by rewrite Hx in Hrun. }
  split; [|split; [done|]].
  - intros n Hpath.
    rewrite (extract_steps_present h data _ Hpath), or_number in Hrun. done.
  - intros Hbucket. apply Habsent.
    unfold steps_path. rewrite path_value_cons.
    destruct (Js.nullish data); [done|]. by rewrite Hbucket.
Qed.

Lemma fetchSteps_extracts_witness :
  completion (run (Example.online 200 (Example.fit_body (JNum 4321)) JNull)
                (fetchSteps ExampleHost.host Example.token) initial_state)
    = inr (JNum 4321)
  /\ completion (run (Example.online 200 (JObj [("bucket", JArr [])]) JNull)
                   (fetchSteps ExampleHost.host Example.token) initial_state)
    = inr (JNum 0).
Proof.
  split.
  - apply (fetchSteps_extracts ExampleHost.host Example.token
             (Example.online 200 (Example.fit_body (JNum 4321)) JNull)
             initial_state
             (mkResponse 200 "status" (inr (Example.fit_body (JNum 4321))))
             (Example.fit_body (JNum 4321))
             eq_refl eq_refl eq_refl eq_refl).
    reflexivity.
  - apply (fetchSteps_extracts ExampleHost.host Example.token
             (Example.online 200 (JObj [("bucket", JArr [])]) JNull)
             initial_state
             (mkResponse 200 "status" (inr (JObj [("bucket", JArr [])])))
             (JObj [("bucket", JArr [])])
             eq_refl eq_refl eq_refl eq_refl).
    reflexivity.
Defined.

(** ** The assistant *)

Lemma truthy_not_nullish v : Js.truthy v = true -> Js.nullish v = false.
Proof. by destruct v. Qed.

Lemma falsy_member v p :
  Js.truthy v = false -> Js.member v (Field p) = JUndefined.
Proof. by destruct v. Qed.

Lemma path_value_undefined path : path_value path JUndefined = None.
Proof. by destruct path. Qed.

Lemma get_present h v k :
  Js.nullish v = false -> Js.get h v k = inr (Js.member v k).
Proof. unfold Js.get. by intros ->. Qed.

Lemma get_absent h v k :
  Js.nullish v = true ->
  Js.get h v k = inl (mkError (engine_message h (ReadOfNullish v k))).
Proof. unfold Js.get. by intros ->. Qed.

Lemma opt_absent v k : Js.nullish v = true -> Js.opt v k = JUndefined.
Proof. unfold Js.opt. by intros ->. Qed.

Lemma opt_present v k : Js.nullish v = false -> Js.opt v k = Js.member v k.
Proof. unfold Js.opt. by intros ->. Qed.

(** The value at a path whose first links are there. *)
Lemma path_value_step k rest v x :
  path_value (k :: rest) v = Some x ->
  Js.nullish v = false /\ path_value rest (Js.member v k) = Some x.
Proof. rewrite path_value_cons. by destruct (Js.nullish v). Qed.

Lemma path_value_end v x : path_value [] v = Some x -> v = x.
Proof. simpl. destruct (Js.nullish v); congruence. Qed.

(** The citations the code collects are the citations of the response. *)
Lemma attribution_source_citation h attribution :
  Js.nullish attribution = false ->
  exists source,
    attribution_source h attribution = inr source
    /\ (if Js.truthy (uri source) && Js.truthy (title source)
        then [source] else []) = option_list (citation attribution).
Proof.
  intros Hattribution. unfold attribution_source, citation, Js.get.
  rewrite Hattribution. eexists. split; [reflexivity|]. simpl.
  rewrite Hattribution. unfold Js.opt.
  destruct (Js.nullish (Js.member attribution (Field P_web))); [done|].
  set (web := Js.member attribution (Field P_web)).
  destruct (Js.member web (Field P_uri)) as [| |b|n|s|l|ms];
    destruct (Js.member web (Field P_title)) as [| |b'|n'|s'|l'|ms'];
    simpl; rewrite ?andb_false_r; try done;
    repeat match goal with
      | |- context [if ?c then _ else _] => destruct c; simpl; try done
      end.
Qed.

Lemma attributions_sources_readable h items :
  forallb (fun a => negb (Js.nullish a)) items = true ->
  attributions_sources h (JArr items) = inr (omap citation items).
Proof.
  unfold attributions_sources.
  assert (Hmap : forallb (fun a => negb (Js.nullish a)) items = true ->
            exists all,
              map_throwing (attribution_source h) items = inr all
              /\ List.filter
                   (fun source => Js.truthy (uri source) && Js.truthy (title source))
                   all = omap citation items).
  { induction items as [|a items IH]; simpl.
    - intros _. by exists [].
    - intros [Ha%negb_true_iff Hitems]%andb_true_iff.
      destruct (attribution_source_citation h a Ha) as (source & -> & Hsource).
      destruct (IH Hitems) as (all & -> & Hall).
      exists (source :: all). split; [done|]. simpl. rewrite Hall.
      destruct (citation a); simpl in Hsource;
        by destruct (Js.truthy (uri source) && Js.truthy (title source));
           simplify_eq. }
  intros Hitems. by destruct (Hmap Hitems) as (all & -> & ->).
Qed.

Lemma attributions_sources_unreadable h items :
  forallb (fun a => negb (Js.nullish a)) items = false ->
  exists e, attributions_sources h (JArr items) = inl e.
Proof.
  unfold attributions_sources.
  induction items as [|a items IH]; simpl; [done|].
  destruct (Js.nullish a) eqn:Ha; simpl.
  - intros _. unfold attribution_source, Js.get. rewrite Ha. eauto.
  - intros Hitems.
    destruct (attribution_source_citation h a Ha) as (source & -> & _).
    destruct (IH Hitems) as (e & He).
    destruct (map_throwing (attribution_source h) items); [eauto|done].
Qed.

Lemma candidate_sources_citations h result candidate :
  path_value [Field P_candidates; Index 0] result = Some candidate ->
  match citations result with
  | Some cited => candidate_sources h candidate = inr cited
  | None => exists e, candidate_sources h candidate = inl e
  end.
Proof.
  intros Hpath. unfold citations, attributions_path.
  apply path_value_step in Hpath as [Hresult Hpath].
  apply path_value_step in Hpath as [Hcandidates Hpath].
  rewrite 2!path_value_cons, Hresult, Hcandidates.
  assert (Hcandidate : Js.nullish candidate = false).
  { rewrite path_value_nil in Hpath.
    destruct (Js.nullish (Js.member _ (Index 0))) eqn:Hn; [done|].
    congruence. }
  apply path_value_end in Hpath. rewrite Hpath.
  unfold candidate_sources, Js.get.
  rewrite 2!path_value_cons, path_value_nil, Hcandidate.
  set (metadata := Js.member candidate (Field P_groundingMetadata)).
  destruct (Js.truthy metadata) eqn:Hmetadata.
  2:{ destruct (Js.nullish metadata); [done|].
      by rewrite falsy_member. }
  rewrite (truthy_not_nullish _ Hmetadata).
  set (attributions := Js.member metadata (Field P_groundingAttributions)).
  destruct attributions as [| |b|n|s|items|ms] eqn:Hattributions; simpl;
    try done; try by eexists.
  - by destruct b; [eexists|].
  - by destruct (n =? 0); [|eexists].
  - by destruct s; [|eexists].
  - destruct (forallb _ items) eqn:Hitems.
    + by apply attributions_sources_readable.
    + by apply attributions_sources_unreadable.
Qed.

#[local] Arguments Js.get : simpl never.
#[local] Arguments Js.opt : simpl never.
#[local] Arguments Js.member : simpl never.
#[local] Arguments Js.truthy : simpl never.
#[local] Arguments Js.nullish : simpl never.
#[local] Arguments path_value : simpl never.
#[local] Arguments candidate_sources : simpl never.

(** How the [try] block ends once the body has parsed: it issues no
    call; with a text at [reply_path] that is truthy it appends the reply,
    unless reading the citations throws; otherwise it appends the content
    error, unless reading [candidates] throws. *)
Lemma run_settle_reply h env result st :
  let o := run env (settle_reply h result) st in
  calls o = []
  /\ match path_value reply_path result with
     | Some t =>
         if Js.truthy t then
           exists candidate,
             path_value [Field P_candidates; Index 0] result = Some candidate
             /\ match candidate_sources h candidate with
                | inl e => completion o = inl e /\ final o = st
                | inr cited =>
                    completion o = inr tt
                    /\ final o = appendChat (mkChat Model t (Some cited)) st
                end
         else completion o = inr tt /\ final o = appendChat contentError st
     | None =>
         (exists e, completion o = inl e /\ final o = st)
         \/ (completion o = inr tt /\ final o = appendChat contentError st)
     end.
Proof.
  unfold settle_reply, reply_path.
  do 3 rewrite path_value_cons.
  destruct (Js.nullish result) eqn:Hresult.
  { rewrite (get_absent h result) by done. simpl. eauto 6. }
  rewrite (get_present h result) by done. simpl.
  set (candidates := Js.member result (Field P_candidates)).
  destruct (Js.nullish candidates) eqn:Hcandidates.
  { rewrite !(opt_absent candidates) by done. simpl. by split; [|right]. }
  rewrite !(opt_present candidates) by done.
  set (candidate := Js.member candidates (Index 0)).
  destruct (Js.truthy candidate) eqn:Hcandidate.
  2:{ simpl. destruct (Js.nullish candidate); [by split; [|right]|].
      rewrite falsy_member, path_value_undefined by done.
      by split; [|right]. }
  rewrite (truthy_not_nullish _ Hcandidate).
  rewrite !(get_present h candidate) by by apply truthy_not_nullish.
  simpl.
  set (content := Js.member candidate (Field P_content)).
  destruct (path_value [Field P_parts; Index 0; Field P_text] content)
    as [t|] eqn:Hpath.
  - pose proof (opt_chain_present _ _ _ Hpath) as Hchain.
    cbn [foldl] in Hchain. rewrite Hchain.
    destruct (Js.truthy t) eqn:Ht; simpl; [|done].
    apply path_value_step in Hpath as [Hcontent Hpath].
    apply path_value_step in Hpath as [Hparts Hpath].
    apply path_value_step in Hpath as [Hpart Hpath].
    apply path_value_end in Hpath.
    rewrite (get_present h content) by done. simpl.
    rewrite (get_present h _ (Index 0)) by done. simpl.
    rewrite (get_present h _ (Field P_text)) by done. simpl.
    rewrite Hpath. split; [by destruct (candidate_sources h candidate)|].
    exists candidate. split.
    + rewrite 2!path_value_cons, path_value_nil, Hresult.
      fold candidates. rewrite Hcandidates. fold candidate.
      by rewrite (truthy_not_nullish _ Hcandidate).
    + by destruct (candidate_sources h candidate).
  - pose proof (nullish_falsy _ (opt_chain_absent _ _ Hpath)) as Hchain.
    cbn [foldl] in Hchain. rewrite Hchain. simpl. by split; [|right].
Qed.

Lemma connectError_synthetic e : synthetic_error (connectError e).
Proof. repeat split. right. by exists (error_message e). Qed.

Lemma contentError_synthetic : synthetic_error contentError.
Proof. repeat split. by left. Qed.

#[local] Arguments settle_reply : simpl never.

(** How a run of [handleGeminiQuery] that passes the guard goes: one
    request with the new history, no error left uncaught, and a state in
    which one entry follows the new history. *)
Lemma run_handleGeminiQuery h input hist cp fit env st :
  JsString.trim_is_empty input && negb (truthy_opt cp) = false ->
  let history := newHistory input hist cp in
  let request := GeminiGenerate (payload history fit) in
  let o := run env (handleGeminiQuery h input hist cp fit) st in
  calls o = [CallFetch request]
  /\ completion o = inr tt
  /\ exists entry,
       final o = after_query history entry st
       /\ settled_entry h (fetch env request) entry.
Proof.
  intros Hguard. unfold handleGeminiQuery. rewrite Hguard. simpl.
  set (history := newHistory input hist cp).
  set (request := GeminiGenerate (payload history fit)).
  set (st1 := setIsChatLoading true _).
  destruct (fetch env request) as [e|r]; simpl.
  { repeat split. exists (connectError e). by split. }
  destruct (json r) as [e|result]; simpl.
  { repeat split. exists (connectError e). by split. }
  rewrite run_try_finally, run_try_catch. simpl.
  destruct (run_settle_reply h env result st1) as [Hcalls Hcases].
  destruct (run env (settle_reply h result) st1) as [c f cs].
  simpl in Hcalls, Hcases. subst cs.
  destruct (path_value reply_path result) as [t|] eqn:Hpath.
  - destruct (Js.truthy t) eqn:Ht.
    + destruct Hcases as (candidate & Hcandidate & Hsources).
      destruct (candidate_sources h candidate) as [e|cited] eqn:Hcited;
        destruct Hsources as [-> ->]; simpl.
      * repeat split. exists (connectError e). split; [done|].
        split; [right; apply connectError_synthetic|]. split; [done|].
        intros t' candidate' cited' _ _ Hcandidate' Hcited'.
        congruence.
      * repeat split. exists (mkChat Model t (Some cited)). split; [done|].
        split; [left; by repeat split|]. split; [done|].
        intros t' candidate' cited' Ht' _ Hcandidate' Hcited'.
        congruence.
    + destruct Hcases as [-> ->]; simpl.
      repeat split. exists contentError. split; [done|].
      split; [right; apply contentError_synthetic|]. split; [done|].
      intros t' candidate' cited' Ht' Htruthy. congruence.
  - destruct Hcases as [(e & -> & ->)|[-> ->]]; simpl.
    + repeat split. exists (connectError e). split; [done|].
      split; [right; apply connectError_synthetic|].
      split; [intros _; apply connectError_synthetic|]. done.
    + repeat split. exists contentError. split; [done|].
      split; [right; apply contentError_synthetic|].
      split; [intros _; apply contentError_synthetic|]. done.
Qed.

Lemma settled_entry_role h o entry : settled_entry h o entry -> role entry = Model.
Proof.
  destruct o as [e|r]; simpl; [by intros ->|].
  destruct (json r) as [e|result]; [by intros ->|].
  intros ([(Hrole & _)|(Hrole & _)] & _); exact Hrole.
Qed.

(** C3, as stated, fails for the step-assessment prompt: with one
    earlier exchange in the transcript, the query with a custom prompt
    leaves a transcript that no longer starts with that exchange. *)
Lemma custom_prompt_drops_transcript :
  ~ transcript_kept Example.transcript
      (run Example.offline
         (handleGeminiQuery ExampleHost.host EmptyString Example.transcript
            (Some (stepsPrompt ExampleHost.host (JNum 0))) true)
         (setChatHistory Example.transcript initial_state)).
Proof.
  intros [[added Hkept] _]. vm_compute in Hkept. discriminate Hkept.
Qed.

(** C3, amended: a query that passes the guard issues one request.  For
    an ordinary submission (no custom prompt) the request carries the
    whole earlier transcript followed by the new user turn, and the
    transcript afterwards is the earlier one, in order, followed by the
    new turn and one reply entry.  For a custom prompt (the
    step-assessment prompt) the request carries the new user turn alone. *)
Theorem query_transcript h input hist cp fit env st :
  JsString.trim_is_empty input && negb (truthy_opt cp) = false ->
  let o := run env (handleGeminiQuery h input hist cp fit) st in
  exists p,
    gemini_payloads (calls o) = [p]
    /\ if truthy_opt cp then contents p = [userTurn (token_text cp)]
       else contents p = hist ++ [userTurn input]
            /\ exists reply,
                 chatHistory (final o) = hist ++ [userTurn input; reply].
Proof.
  intros Hguard.
  destruct (run_handleGeminiQuery h input hist cp fit env st Hguard)
    as (Hcalls & _ & entry & Hfinal & _).
  simpl. rewrite Hcalls, Hfinal. eexists. split; [reflexivity|].
  unfold newHistory. simpl.
  destruct (truthy_opt cp); simpl; [done|].
  split; [done|]. exists entry. by rewrite <- app_assoc.
Qed.

Lemma query_transcript_witness :
  exists p reply,
    gemini_payloads
      (calls (run Example.offline
                (handleGeminiQuery ExampleHost.host "How much water per day?"
                   Example.transcript None false)
                (setChatHistory Example.transcript initial_state))) = [p]
    /\ contents p = Example.transcript ++ [userTurn "How much water per day?"]
    /\ chatHistory
         (final (run Example.offline
                   (handleGeminiQuery ExampleHost.host "How much water per day?"
                      Example.transcript None false)
                   (setChatHistory Example.transcript initial_state)))
       = Example.transcript ++ [userTurn "How much water per day?"; reply].
Proof.
  destruct (query_transcript ExampleHost.host "How much water per day?"
              Example.transcript None false Example.offline
              (setChatHistory Example.transcript initial_state) eq_refl)
    as (p & Hp & Hcontents & reply & Hreply).
  exists p, reply. repeat split; assumption.
Defined.

Lemma run_handleGeminiQuery_settles h input hist cp fit env st :
  JsString.trim_is_empty input && negb (truthy_opt cp) = false ->
  let history := newHistory input hist cp in
  let request := GeminiGenerate (payload history fit) in
  let o := run env (handleGeminiQuery h input hist cp fit) st in
  calls o = [CallFetch request]
  /\ exists entry,
       final o = after_query history entry st
       /\ settles_as (fetch env request) entry.
Proof.
  intros Hguard. unfold handleGeminiQuery. rewrite Hguard. simpl.
  set (history := newHistory input hist cp).
  set (request := GeminiGenerate (payload history fit)).
  set (st1 := setIsChatLoading true _).
  destruct (fetch env request) as [e|r]; simpl.
  { split; [done|]. by exists (connectError e). }
  destruct (json r) as [e|result]; simpl.
  { split; [done|]. by exists (connectError e). }
  rewrite run_try_finally, run_try_catch. simpl.
  destruct (run_settle_reply h env result st1) as [Hcalls Hcases].
  destruct (run env (settle_reply h result) st1) as [c f cs].
  simpl in Hcalls, Hcases. subst cs.
  destruct (path_value reply_path result) as [t|] eqn:Hpath.
  - destruct (Js.truthy t) eqn:Ht.
    + destruct Hcases as (candidate & Hcandidate & Hsources).
      pose proof (candidate_sources_citations h result candidate Hcandidate)
        as Hcited.
      destruct (citations result) as [cited|].
      * rewrite Hcited in Hsources. destruct Hsources as [-> ->]; simpl.
        split; [done|]. by exists (mkChat Model t (Some cited)).
      * destruct Hcited as [e He]. rewrite He in Hsources.
        destruct Hsources as [-> ->]; simpl.
        split; [done|]. exists (connectError e).
        split; [done|apply connectError_synthetic].
    + destruct Hcases as [-> ->]; simpl.
      split; [done|]. exists contentError. split; [done|].
      destruct (citations result); apply contentError_synthetic.
  - destruct Hcases as [(e & -> & ->)|[-> ->]]; simpl.
    + split; [done|]. exists (connectError e).
      split; [done|apply connectError_synthetic].
    + split; [done|]. exists contentError.
      split; [done|apply contentError_synthetic].
Qed.

Lemma settles_as_role o entry : settles_as o entry -> role entry = Model.
Proof.
  destruct o as [e|r]; simpl; [by intros ->|].
  destruct (json r) as [e|result]; [by intros ->|].
  destruct (path_value reply_path result) as [t|];
    [destruct (citations result) as [cited|]|];
    [destruct (Js.truthy t); [by intros ->|]|..];
    by intros (Hrole & _).
Qed.

(** C4, as stated, fails: a response can carry the reply text and still
    not be answered with it.  Here the model request is answered with
    status 200 and a body that has the text ["Drink water."] and one
    grounding attribution, which is [null]; the entry that follows the
    user's turn is a made-up error, not the reply. *)
Lemma reply_with_null_attribution_dropped :
  path_value reply_path uncitable_body = Some (JStr "Drink water.")
  /\ exists entry,
       chatHistory
         (final (run (Example.online 200 JNull uncitable_body)
                   (handleGeminiQuery ExampleHost.host "How much water per day?"
                      [] None false)
                   initial_state))
         = [userTurn "How much water per day?"; entry]
       /\ synthetic_error entry
       /\ ~ reply_of uncitable_body entry.
Proof.
  split; [reflexivity|].
  eexists. split; [reflexivity|]. split.
  - repeat split. right. by eexists.
  - intros (_ & Htext & _). vm_compute in Htext. discriminate Htext.
Qed.

(** C4, amended: a query that passes the guard issues exactly one
    request, and when it has settled the transcript is the history that
    was sent followed by exactly one entry, whose role is [Model],
    whatever the outcome.  The entry is the reply text with the
    citations of the response when the response has a text that is not
    empty at [candidates[0].content.parts[0].text] and its grounding
    attributions can be read (there are none, or they are an array
    without [null] in it); the citations are those attributions that
    have both a [web.uri] and a [web.title].  In every other case (a
    network error, a body that is no JSON, missing or empty content,
    attributions that cannot be read) the entry is a made-up error
    entry without citations. *)
Theorem query_settles_with_one_model_entry h input hist cp fit env st :
  JsString.trim_is_empty input && negb (truthy_opt cp) = false ->
  let history := newHistory input hist cp in
  let o := run env (handleGeminiQuery h input hist cp fit) st in
  gemini_payloads (calls o) = [payload history fit]
  /\ exists entry,
       final o = after_query history entry st
       /\ chatHistory (final o) = history ++ [entry]
       /\ role entry = Model
       /\ settles_as (fetch env (GeminiGenerate (payload history fit))) entry.
Proof.
  intros Hguard.
  destruct (run_handleGeminiQuery_settles h input hist cp fit env st Hguard)
    as (Hcalls & entry & Hfinal & Hentry).
  simpl. rewrite Hcalls, Hfinal. split; [reflexivity|].
  exists entry. repeat split; [|done]. by eapply settles_as_role.
Qed.

Lemma query_settles_with_one_model_entry_witness :
  exists entry,
    chatHistory
      (final (run (Example.online 200 JNull cited_body)
                (handleGeminiQuery ExampleHost.host "How much water per day?"
                   Example.transcript None false)
                (setChatHistory Example.transcript initial_state)))
      = (Example.transcript ++ [userTurn "How much water per day?"]) ++ [entry]
    /\ entry = mkChat Model (JStr "Drink water.")
                 (Some [mkSource (JStr "https://example.org/water")
                          (JStr "Water")]).
Proof.
  destruct (query_settles_with_one_model_entry ExampleHost.host
              "How much water per day?" Example.transcript None false
              (Example.online 200 JNull cited_body)
              (setChatHistory Example.transcript initial_state) eq_refl)
    as (_ & entry & _ & Hhistory & _ & Hentry).
  exists entry. split; [exact Hhistory|exact Hentry].
Defined.

(** ** Assessing the steps *)

#[local] Arguments handleGeminiQuery : simpl never.
#[local] Arguments fetchSteps : simpl never.

Lemma stepsPrompt_truthy h steps : truthy_opt (Some (stepsPrompt h steps)) = true.
Proof. reflexivity. Qed.

(** Every failure of the step fetch makes [fetchSteps] return 0. *)
Lemma fetchSteps_failure_returns_zero h tok env st :
  fetch_failed tok env = true ->
  completion (run env (fetchSteps h tok) st) = inr (JNum 0).
Proof.
  unfold fetch_failed, fetchSteps.
  destruct (truthy_opt tok); simpl; [|done].
  destruct (fetch env _) as [e|r]; simpl; [done|].
  intros ->%negb_true_iff. simpl. by destruct (status r =? 401).
Qed.

(** C10, as stated, fails: a response whose [intVal] is -5 makes
    [fetchSteps] return -5, the guard [steps > 0 || steps === 0] is false,
    and the workflow ends without a request to the model. *)
Lemma assess_negative_steps_sends_nothing :
  completion
    (run (Example.online 200 (Example.fit_body (JNum (-5)))
            (Example.reply_body "Keep moving."))
       (fetchSteps ExampleHost.host Example.token) initial_state)
    = inr (JNum (-5))
  /\ stepsGuard ExampleHost.host (JNum (-5)) = false
  /\ gemini_payloads
       (calls (run (Example.online 200 (Example.fit_body (JNum (-5)))
                      (Example.reply_body "Keep moving."))
                 (handleAssessSteps ExampleHost.host Example.token
                    EmptyString [])
                 initial_state))
     = [].
Proof. repeat split. Qed.

(** C10, amended: every failure of the step fetch (no token, a rejected
    request, a status outside 200 to 299, 401 among them) makes
    [fetchSteps] return 0; and whenever [fetchSteps] returns a number
    [n >= 0], the guard holds and the workflow goes on to send the model
    the coaching prompt for exactly [n] steps, so that a failed fetch is
    assessed like a day of zero steps.  When it returns a negative number
    the guard fails and nothing is sent. *)
Theorem assess_steps_sends_prompt h tok input hist env st :
  let fetched := run env (fetchSteps h tok) st in
  let o := run env (handleAssessSteps h tok input hist) st in
  (fetch_failed tok env = true -> completion fetched = inr (JNum 0))
  /\ (forall n, completion fetched = inr (JNum n) -> 0 <= n ->
        stepsGuard h (JNum n) = true
        /\ calls o = calls fetched
             ++ [CallFetch (GeminiGenerate
                   (payload [userTurn (stepsPrompt h (JNum n))] true))])
  /\ (forall n, completion fetched = inr (JNum n) -> n < 0 ->
        stepsGuard h (JNum n) = false /\ calls o = calls fetched).
Proof.
  simpl. split; [apply fetchSteps_failure_returns_zero|]. split.
  - intros n Hfetched Hn.
    assert (Hguard : stepsGuard h (JNum n) = true).
    { unfold stepsGuard. simpl. apply orb_true_iff.
      destruct (Z.eq_dec n 0) as [->|]; [by right|left].
      apply Z.ltb_lt. lia. }
    split; [done|].
    unfold handleAssessSteps. rewrite run_bind, Hfetched, Hguard.
    unfold followed_by. simpl. f_equal.
    destruct (run_handleGeminiQuery h input hist
                (Some (stepsPrompt h (JNum n))) true env
                (setActiveTab TabChat (final (run env (fetchSteps h tok) st))))
      as (Hcalls & _).
    { by rewrite stepsPrompt_truthy, andb_false_r. }
    exact Hcalls.
  - intros n Hfetched Hn.
    assert (Hguard : stepsGuard h (JNum n) = false).
    { unfold stepsGuard. simpl. apply orb_false_iff.
      split; [apply Z.ltb_ge|apply Z.eqb_neq]; lia. }
    split; [done|].
    unfold handleAssessSteps. rewrite run_bind, Hfetched, Hguard.
    unfold followed_by. simpl. apply app_nil_r.
Qed.

Lemma assess_steps_sends_prompt_witness :
  completion (run Example.offline (fetchSteps ExampleHost.host Example.token)
                initial_state) = inr (JNum 0)
  /\ gemini_payloads
       (calls (run Example.offline
                 (handleAssessSteps ExampleHost.host Example.token
                    EmptyString [])
                 initial_state))
     = [payload [userTurn (stepsPrompt ExampleHost.host (JNum 0))] true].
Proof.
  destruct (assess_steps_sends_prompt ExampleHost.host Example.token
              EmptyString [] Example.offline initial_state)
    as (Hfailed & Hsent & _).
  split; [exact (Hfailed eq_refl)|].
  destruct (Hsent 0 (Hfailed eq_refl) ltac:(lia)) as [_ Hcalls].
  rewrite Hcalls. reflexivity.
Defined.

(** ** Medication reminders *)

Lemma snapshot_elem_of coll med :
  med ∈ Firestore.snapshot coll <->
  exists d, coll !! med_id med = Some d /\ med = Firestore.record (med_id med, d).
Proof.
  unfold Firestore.snapshot. rewrite merge_sort_Permutation, list_elem_of_fmap.
  split.
  - intros ([id d] & -> & Hin%elem_of_map_to_list). by exists d.
  - intros (d & Hd & ->). exists (med_id med, d).
    split; [done|]. by apply elem_of_map_to_list.
Qed.

(** A new document shows up as one more record of the synced list. *)
Lemma snapshot_insert_fresh coll id d :
  coll !! id = None ->
  Firestore.snapshot (<[id := d]> coll)
    ≡ₚ Firestore.record (id, d) :: Firestore.snapshot coll.
Proof.
  intros Hfresh. unfold Firestore.snapshot.
  rewrite !merge_sort_Permutation, map_to_list_insert by done.
  by rewrite fmap_cons.
Qed.

Lemma set_isTaken_same d : Firestore.set_isTaken (Firestore.doc_isTaken d) d = d.
Proof. by destruct d. Qed.

Lemma set_isTaken_twice a b d :
  Firestore.set_isTaken a (Firestore.set_isTaken b d) = Firestore.set_isTaken a d.
Proof. reflexivity. Qed.

Lemma calls_handleToggleTaken env c id isTaken st :
  calls (run env (handleToggleTaken (Some c) id isTaken) st)
    = [CallStore (UpdateDoc c id (negb isTaken))].
Proof. simpl. by destruct (store env _). Qed.

(** One click on the toggle button of a record that is in the store. *)
Lemma toggle_click_collection r c med d w :
  collection w !! med_id med = Some d ->
  collection (world_step r (toggle_click (Some c) med) w)
    = <[med_id med := Firestore.set_isTaken (negb (med_isTaken med)) d]>
        (collection w).
Proof.
  intros Hd. unfold world_step, toggle_click. cbv zeta. cbn [collection].
  rewrite calls_handleToggleTaken. simpl. by rewrite Hd.
Qed.

(** C9: on a synced list, a click on the toggle button of a record puts
    the record with the flag negated, and no other field changed, in the
    list, and leaves every other document as it was; a second click, on
    the record as it is then shown, brings the store and the list back to
    where they were. *)
Theorem toggle_twice_restores c r1 r2 med w :
  medications (app w) = Firestore.snapshot (collection w) ->
  med ∈ medications (app w) ->
  let toggled := with_isTaken (negb (med_isTaken med)) med in
  let w1 := world_step r1 (toggle_click (Some c) med) w in
  let w2 := world_step r2 (toggle_click (Some c) toggled) w1 in
  toggled ∈ medications (app w1)
  /\ (forall id, id <> med_id med -> collection w1 !! id = collection w !! id)
  /\ collection w2 = collection w
  /\ medications (app w2) = medications (app w).
Proof.
  intros Hsynced Hmed. rewrite Hsynced in Hmed.
  apply snapshot_elem_of in Hmed as (d & Hd & Hrecord).
  intros toggled w1 w2.
  assert (Hw1 : collection w1
            = <[med_id med := Firestore.set_isTaken (negb (med_isTaken med)) d]>
                (collection w)).
  { by apply toggle_click_collection. }
  assert (Hw2 : collection w2 = collection w).
  { unfold w2.
    rewrite (toggle_click_collection r2 c toggled
               (Firestore.set_isTaken (negb (med_isTaken med)) d)).
    2:{ rewrite Hw1. simpl. by rewrite lookup_insert_eq. }
    rewrite Hw1. simpl. rewrite insert_insert_eq, set_isTaken_twice.
    rewrite negb_involutive.
    assert (Hflag : med_isTaken med = Firestore.doc_isTaken d)
      by (by rewrite Hrecord).
    rewrite Hflag, set_isTaken_same. by apply insert_id. }
  repeat split.
  - change (medications (app w1)) with (Firestore.snapshot (collection w1)).
    rewrite Hw1. apply snapshot_elem_of.
    exists (Firestore.set_isTaken (negb (med_isTaken med)) d).
    split; [apply lookup_insert_eq|].
    unfold toggled, with_isTaken. rewrite Hrecord. reflexivity.
  - intros id Hid. rewrite Hw1. by apply lookup_insert_ne.
  - exact Hw2.
  - change (medications (app w2)) with (Firestore.snapshot (collection w2)).
    by rewrite Hw2, Hsynced.
Qed.

Lemma toggle_twice_restores_witness :
  collection
    (world_step Example.remote
       (toggle_click (Some Example.ref)
          (with_isTaken true (Firestore.record ("med-1", Example.aspirin))))
       (world_step Example.remote
          (toggle_click (Some Example.ref)
             (Firestore.record ("med-1", Example.aspirin)))
          Example.world))
    = collection Example.world.
Proof.
  apply (toggle_twice_restores Example.ref Example.remote Example.remote
           (Firestore.record ("med-1", Example.aspirin)) Example.world).
  - reflexivity.
  - apply snapshot_elem_of. exists Example.aspirin.
    split; [apply lookup_singleton_eq|reflexivity].
Defined.

Lemma calls_handleSubmit_valid env c name dose time st :
  JsString.truthy name = true ->
  JsString.truthy dose = true ->
  JsString.truthy time = true ->
  calls (run env (handleSubmit name dose time (Some c)) st)
    = [CallStore (AddDoc c (mkNew name dose time false ServerTimestamp))].
Proof.
  intros Hname Hdose Htime. unfold handleSubmit.
  rewrite Hname, Hdose, Htime. simpl. by destruct (store env _).
Qed.

Lemma truthy_nonempty s : s <> EmptyString -> JsString.truthy s = true.
Proof. by destruct s. Qed.

(** C8: a submission with a name, a dose and a time that are not empty,
    and with the collection of the user, issues exactly one request,
    [addDoc] with the fields name, dose, time, [isTaken: false] and the
    server's timestamp as [createdAt], and once the store has carried it
    out the synced list is the earlier one with exactly one more record,
    whose [isTaken] is false.  A submission with an empty field (or with
    no collection) raises the notice and issues no request. *)
Theorem submit_creates_one_record name dose time collectionRef r w :
  collection w !! new_id r = None ->
  let t := handleSubmit name dose time collectionRef in
  let o := run (store_env r (collection w)) t (app w) in
  (forall c, collectionRef = Some c ->
     name <> EmptyString -> dose <> EmptyString -> time <> EmptyString ->
     calls o = [CallStore (AddDoc c (mkNew name dose time false ServerTimestamp))]
     /\ medications (app (world_step r t w))
          ≡ₚ mkMedication (new_id r) name dose time false (server_time r)
               :: Firestore.snapshot (collection w))
  /\ (name = EmptyString \/ dose = EmptyString \/ time = EmptyString
       \/ collectionRef = None ->
       calls o = []
       /\ message (final o)
            = Some (mkMessage MsgError "All fields are required.")).
Proof.
  intros Hfresh t o. split.
  - intros c -> Hname%truthy_nonempty Hdose%truthy_nonempty
      Htime%truthy_nonempty.
    pose proof (calls_handleSubmit_valid (store_env r (collection w)) c
                  name dose time (app w) Hname Hdose Htime) as Hcalls.
    split; [exact Hcalls|].
    change (medications (app (world_step r t w)))
      with (Firestore.snapshot (committed r (calls o) (collection w))).
    unfold o, t. rewrite Hcalls. simpl.
    by rewrite snapshot_insert_fresh.
  - unfold o, t, handleSubmit.
    intros [-> | [-> | [-> | ->]]]; [destruct collectionRef.. |];
      simpl; rewrite ?orb_true_r; try done.
    all: destruct (JsString.truthy name); simpl; try done.
    all: destruct (JsString.truthy dose); simpl; done.
Qed.

Lemma submit_creates_one_record_witness :
  calls (run (store_env Example.remote (collection Example.world))
           (handleSubmit "Ibuprofen" "200mg" "20:00" (Some Example.ref))
           (app Example.world))
    = [CallStore (AddDoc Example.ref
         (mkNew "Ibuprofen" "200mg" "20:00" false ServerTimestamp))]
  /\ medications
       (app (world_step Example.remote
               (handleSubmit "Ibuprofen" "200mg" "20:00" (Some Example.ref))
               Example.world))
     ≡ₚ mkMedication "med-2" "Ibuprofen" "200mg" "20:00" false Example.clock
          :: Firestore.snapshot (collection Example.world).
Proof.
  apply (submit_creates_one_record "Ibuprofen" "200mg" "20:00"
           (Some Example.ref) Example.remote Example.world).
  - apply lookup_singleton_ne. discriminate.
  - reflexivity.
  - discriminate.
  - discriminate.
  - discriminate.
Defined.

(** ** What the handlers leave alone *)

Lemma every_update_bind {A B : Type} Q (t : Task A) (f : A -> Task B) :
  every_update Q t -> (forall a, every_update Q (f a)) ->
  every_update Q (t ≫= f).
Proof.
  intros Ht Hf. change (every_update Q (Async.bind t f)).
  induction t as [a|e|u k IH|k IH|req k IH|req k IH]; simpl in *;
    try done; try (intros x; by apply IH).
  destruct Ht as [Hu Hk]. split; [done|]. by apply IH.
Qed.

Lemma every_update_try_catch {A : Type} Q (t : Task A) handler :
  every_update Q t -> (forall e, every_update Q (handler e)) ->
  every_update Q (Async.try_catch t handler).
Proof.
  intros Ht Hh.
  induction t as [a|e|u k IH|k IH|req k IH|req k IH]; simpl in *;
    try done; try (intros x; by apply IH).
  destruct Ht as [Hu Hk]. split; [done|]. by apply IH.
Qed.

Lemma every_update_try_finally {A : Type} Q (t : Task A) fin :
  every_update Q t -> every_update Q fin ->
  every_update Q (Async.try_finally t fin).
Proof.
  intros Ht Hfin.
  induction t as [a|e|u k IH|k IH|req k IH|req k IH]; simpl in *;
    try (intros x; by apply IH).
  - by apply (every_update_bind Q fin).
  - by apply (every_update_bind Q fin).
  - destruct Ht as [Hu Hk]. split; [done|]. by apply IH.
Qed.

Lemma every_update_lift {A : Type} Q (r : JsError + A) :
  every_update Q (Async.lift r).
Proof. by destruct r. Qed.

Lemma every_update_set Q f : Q f -> every_update Q (Async.set f).
Proof. by split. Qed.

(** A property of the state that every update of a task preserves
    holds when the task has run. *)
Lemma every_update_run {R : Type} (Q : (AppState -> AppState) -> Prop)
    (P : AppState -> Prop) env (t : Task R) st :
  (forall f, Q f -> forall st, P st -> P (f st)) ->
  every_update Q t -> P st -> P (final (run env t st)).
Proof.
  intros HQ. revert st.
  induction t as [a|e|u k IH|k IH|req k IH|req k IH]; simpl; intros st Ht Hst;
    try done.
  - destruct Ht as [Hu Hk]. apply IH; [done|]. by apply HQ.
  - by apply IH.
  - by apply IH.
  - by apply IH.
Qed.

Lemma keeps_run {R A : Type} (part : AppState -> A) env (t : Task R) st :
  every_update (keeps part) t -> part (final (run env t st)) = part st.
Proof.
  intros Ht.
  apply (every_update_run (keeps part) (fun st' => part st' = part st));
    [|done|done].
  intros f Hf st' <-. apply Hf.
Qed.

Lemma every_update_await_fetch Q req : every_update Q (Async.await_fetch req).
Proof. by intros []. Qed.

Lemma every_update_await_store Q req : every_update Q (Async.await_store req).
Proof. by intros []. Qed.

(** Takes a task apart along its binds, handlers and branches. *)
Ltac updates :=
  repeat match goal with
    | |- every_update _ (mbind _ _) => apply every_update_bind
    | |- every_update _ (Async.try_catch _ _) => apply every_update_try_catch
    | |- every_update _ (Async.try_finally _ _) =>
        apply every_update_try_finally
    | |- every_update _ (Async.lift _) => apply every_update_lift
    | |- every_update _ (Async.set _) => apply every_update_set
    | |- every_update _ (Async.await_fetch _) => apply every_update_await_fetch
    | |- every_update _ (Async.await_store _) => apply every_update_await_store
    | |- every_update _ (Return _) => exact I
    | |- every_update _ (Throw _) => exact I
    | |- every_update _ (DateNow _) => cbn [every_update]
    | |- every_update _ (if ?b then _ else _) => destruct b
    | |- every_update _ (match ?x with _ => _ end) => destruct x
    | |- every_update _ (let _ := _ in _) => cbv zeta
    | |- forall _, _ => intro
    | |- keeps _ _ => intros ?; reflexivity
    end.

Lemma every_update_impl {R : Type} (Q Q' : (AppState -> AppState) -> Prop)
    (t : Task R) :
  (forall f, Q f -> Q' f) -> every_update Q t -> every_update Q' t.
Proof.
  intros HQ.
  induction t as [a|e|u k IH|k IH|req k IH|req k IH]; simpl; try done;
    try (intros Ht x; by apply IH).
  intros [Hu Hk]. split; [by apply HQ|by apply IH].
Qed.

Lemma handleGeminiQuery_updates h input hist cp fit :
  every_update (keeps outside_chat) (handleGeminiQuery h input hist cp fit).
Proof. unfold handleGeminiQuery, settle_reply. updates. Qed.

Lemma fetchSteps_updates h tok :
  every_update (keeps outside_fit) (fetchSteps h tok).
Proof. unfold fetchSteps. updates. Qed.

Lemma handleSubmit_updates name dose time collectionRef :
  every_update (keeps outside_form) (handleSubmit name dose time collectionRef).
Proof. unfold handleSubmit. updates. Qed.

Lemma handleToggleTaken_updates collectionRef id isTaken :
  every_update (keeps outside_form) (handleToggleTaken collectionRef id isTaken).
Proof. unfold handleToggleTaken. updates. Qed.

Lemma handleDelete_updates collectionRef id :
  every_update (keeps outside_form) (handleDelete collectionRef id).
Proof. unfold handleDelete. updates. Qed.

(** X1.  Whatever the model answers and whenever its answer arrives,
    no state update of [handleGeminiQuery] touches a cell of [App]
    other than the transcript, the chat input and the chat loading
    flag: the user, the reminders, the active tab, the notice, the
    token, the step count and the Fit loading flag stay as they are.
    (The cells of the medication form are not cells of [App]: its
    updates mount the form anew.) *)
Theorem handleGeminiQuery_touches_chat_only h input hist cp fit env st :
  every_update (keeps outside_chat) (handleGeminiQuery h input hist cp fit)
  /\ outside_chat (final (run env (handleGeminiQuery h input hist cp fit) st))
     = outside_chat st.
Proof.
  split; [apply handleGeminiQuery_updates|].
  apply keeps_run, handleGeminiQuery_updates.
Qed.

(** X2.  No state update of [fetchSteps] touches a cell of [App] other
    than the notice, the token, the step count and the Fit loading
    flag: the user, the reminders, the transcript, the chat input, the
    chat loading flag and the active tab stay as they are, whatever the
    request settles to.  (The cells of the medication form are not
    cells of [App]: its updates mount the form anew.) *)
Theorem fetchSteps_touches_fit_only h tok env st :
  every_update (keeps outside_fit) (fetchSteps h tok)
  /\ outside_fit (final (run env (fetchSteps h tok) st)) = outside_fit st.
Proof.
  split; [apply fetchSteps_updates|].
  apply keeps_run, fetchSteps_updates.
Qed.

(** X3.  The three medication handlers update nothing but the notice
    and the fields of the form; in particular they never write the
    reminder list themselves, which only the snapshot listener sets. *)
Theorem medication_handlers_touch_form_only name dose time collectionRef
    id isTaken env st :
  outside_form (final (run env (handleSubmit name dose time collectionRef) st))
    = outside_form st
  /\ outside_form (final (run env (handleToggleTaken collectionRef id isTaken) st))
     = outside_form st
  /\ outside_form (final (run env (handleDelete collectionRef id) st))
     = outside_form st.
Proof.
  repeat split; apply keeps_run.
  - apply handleSubmit_updates.
  - apply handleToggleTaken_updates.
  - apply handleDelete_updates.
Qed.

(** ** The token is never set *)

Lemma keeps_token_never_sets f :
  keeps googleAccessToken f -> never_sets_token f.
Proof. intros Hf st Hst. by rewrite Hf. Qed.

Lemma outside_chat_never_sets f : keeps outside_chat f -> never_sets_token f.
Proof.
  intros Hf st Hst. specialize (Hf st). unfold outside_chat in Hf.
  injection Hf as _ _ _ _ _ Htoken _ _. congruence.
Qed.

Lemma outside_form_never_sets f : keeps outside_form f -> never_sets_token f.
Proof.
  intros Hf st Hst. specialize (Hf st). unfold outside_form in Hf.
  injection Hf as _ _ _ _ _ _ _ Htoken _ _. congruence.
Qed.

Lemma fetchSteps_never_sets_token h tok :
  every_update never_sets_token (fetchSteps h tok).
Proof.
  unfold fetchSteps. updates;
    match goal with |- never_sets_token _ => by intros ? end.
Qed.

Lemma handleAssessSteps_never_sets_token h tok input hist :
  every_update never_sets_token (handleAssessSteps h tok input hist).
Proof.
  unfold handleAssessSteps. apply every_update_bind.
  - apply fetchSteps_never_sets_token.
  - intros steps. destruct (stepsGuard h steps); [|exact I].
    apply every_update_bind; [apply every_update_set; by intros ?|]. intros _.
    eapply every_update_impl; [apply outside_chat_never_sets|].
    apply handleGeminiQuery_updates.
Qed.

Lemma never_sets_token_run {R : Type} env (t : Task R) st :
  every_update never_sets_token t ->
  googleAccessToken st = None ->
  googleAccessToken (final (run env t st)) = None.
Proof.
  intros Ht.
  apply (every_update_run never_sets_token
           (fun st' => googleAccessToken st' = None)); [|done].
  intros f Hf. exact Hf.
Qed.

Lemma react_never_sets_token h client_id ev st :
  googleAccessToken st = None ->
  googleAccessToken (react h client_id ev st) = None.
Proof.
  intros Hst. destruct ev; simpl; try done.
  - by rewrite oauth_redirect_effect_inert.
  - unfold handleGoogleSignIn. by destruct (String.eqb _ _).
  - apply never_sets_token_run; [apply fetchSteps_never_sets_token|done].
  - apply never_sets_token_run;
      [apply handleAssessSteps_never_sets_token|done].
  - apply never_sets_token_run; [|done].
    eapply every_update_impl; [apply outside_chat_never_sets|].
    apply handleGeminiQuery_updates.
  - apply never_sets_token_run; [|done].
    eapply every_update_impl; [apply outside_form_never_sets|].
    apply handleSubmit_updates.
  - apply never_sets_token_run; [|done].
    eapply every_update_impl; [apply outside_form_never_sets|].
    apply handleToggleTaken_updates.
  - apply never_sets_token_run; [|done].
    eapply every_update_impl; [apply outside_form_never_sets|].
    apply handleDelete_updates.
Qed.

(** X4.  After any sequence of events (mounting with any address,
    sign-in changes, snapshots, clicks, submissions, typing, with any
    answers of the remote services and any client identifier) the
    component holds no Google token: the Fit tab still shows the connect
    button, and [fetchSteps] with the token of that state sends no
    request and returns 0. *)
Theorem token_never_set h client_id events env :
  let st := after_events h client_id events in
  googleAccessToken st = None
  /\ connect_shown st = true
  /\ calls (run env (fetchSteps h (googleAccessToken st)) st) = []
  /\ completion (run env (fetchSteps h (googleAccessToken st)) st)
     = inr (JNum 0).
Proof.
  assert (Htoken : googleAccessToken (after_events h client_id events) = None).
  { unfold after_events.
    assert (Hgen : forall st, googleAccessToken st = None ->
              googleAccessToken
                (foldl (fun st ev => react h client_id ev st) st events) = None).
    { induction events as [|ev events IH]; intros st Hst; simpl; [done|].
      by apply IH, react_never_sets_token. }
    by apply Hgen. }
  simpl. unfold connect_shown. rewrite Htoken.
  repeat split; reflexivity.
Qed.

(** ** More on fetching the steps *)

(** X5.  [fetchSteps] never rejects: it always returns a value.  It
    sends one request, with the held token as bearer, when there is a
    token and none otherwise; with a token the loading flag is false at
    the end; and the displayed step count is either what it was or the
    value returned. *)
Theorem fetchSteps_never_rejects h tok env st :
  exists steps,
    completion (run env (fetchSteps h tok) st) = inr steps
    /\ calls (run env (fetchSteps h tok) st)
       = (if truthy_opt tok
          then [CallFetch (FitAggregate (token_text tok) (requestBody (now env)))]
          else [])
    /\ isFitLoading (final (run env (fetchSteps h tok) st))
       = (if truthy_opt tok then false else isFitLoading st)
    /\ (stepCount (final (run env (fetchSteps h tok) st)) = stepCount st
        \/ stepCount (final (run env (fetchSteps h tok) st)) = Some steps).
Proof.
  unfold fetchSteps. destruct (truthy_opt tok); simpl.
  2:{ eexists. repeat split. by left. }
  destruct (fetch env _) as [e|r]; simpl.
  { eexists. repeat split. by right. }
  destruct (ok r); simpl.
  - destruct (json r) as [e|data]; simpl.
    { eexists. repeat split. by right. }
    destruct (extract_steps h data) as [e|steps]; simpl;
      eexists; repeat split; by right.
  - destruct (status r =? 401); simpl; eexists; repeat split;
      [by left|by right].
Qed.

(** X6.  [fetchSteps] changes the held token only when the request is
    answered with status 401, and then it clears it: after a rejected
    request, any other status, or a success, the token is the one held
    before. *)
Theorem fetchSteps_clears_token_only_on_401 h tok env st :
  googleAccessToken (final (run env (fetchSteps h tok) st))
  = if truthy_opt tok then
      match fetch env (FitAggregate (token_text tok) (requestBody (now env))) with
      | FetchResolved r =>
          if status r =? 401 then None else googleAccessToken st
      | FetchRejected _ => googleAccessToken st
      end
    else googleAccessToken st.
Proof.
  unfold fetchSteps. destruct (truthy_opt tok); simpl; [|done].
  destruct (fetch env _) as [e|r]; simpl; [done|].
  destruct (status r =? 401) eqn:Hstatus.
  - apply Z.eqb_eq in Hstatus. unfold ok. rewrite Hstatus. simpl. done.
  - destruct (ok r); simpl; [|done].
    destruct (json r) as [e|data]; simpl; [done|].
    by destruct (extract_steps h data).
Qed.

(** X7.  When the aggregate request fails other than by status 401
    (rejected request, other error status, body that is no JSON, body
    [null]), [fetchSteps] returns 0, sets the displayed step count to 0,
    and raises the notice that starts with [Failed to fetch activity: ]
    and ends with the message of the error; the token is kept. *)
Theorem fetchSteps_failure_resets_count h tok env st e :
  truthy_opt tok = true ->
  fit_failure h
    (fetch env (FitAggregate (token_text tok) (requestBody (now env)))) e ->
  completion (run env (fetchSteps h tok) st) = inr (JNum 0)
  /\ final (run env (fetchSteps h tok) st)
     = setIsFitLoading false
         (setStepCount (Some (JNum 0))
            (setMessage (Some (mkMessage MsgError
               ("Failed to fetch activity: " +:+ error_message e)))
               (setIsFitLoading true st)))
  /\ stepCount (final (run env (fetchSteps h tok) st)) = Some (JNum 0)
  /\ googleAccessToken (final (run env (fetchSteps h tok) st))
     = googleAccessToken st.
Proof.
  intros Htok Hfail. unfold fetchSteps. rewrite Htok. simpl.
  destruct Hfail as [e'|r Hok Hstatus|r e' Hok Hjson|r data Hok Hjson Hnull];
    simpl.
  - done.
  - rewrite Hok. simpl. apply Z.eqb_neq in Hstatus. rewrite Hstatus. done.
  - rewrite Hok, Hjson. simpl. done.
  - rewrite Hok, Hjson. simpl. unfold extract_steps.
    rewrite (get_absent h data) by done. simpl. done.
Qed.

Lemma fetchSteps_failure_resets_count_witness :
  completion (run (Example.online 503 JNull JNull)
                (fetchSteps ExampleHost.host Example.token)
                (setStepCount (Some (JNum 4321)) initial_state))
    = inr (JNum 0)
  /\ stepCount (final (run (Example.online 503 JNull JNull)
                         (fetchSteps ExampleHost.host Example.token)
                         (setStepCount (Some (JNum 4321)) initial_state)))
     = Some (JNum 0).
Proof.
  destruct (fetchSteps_failure_resets_count ExampleHost.host Example.token
              (Example.online 503 JNull JNull)
              (setStepCount (Some (JNum 4321)) initial_state)
              (mkError "Google Fit API error: status") eq_refl)
    as (Hret & _ & Hcount & _).
  - apply (fit_bad_status ExampleHost.host (mkResponse 503 "status" (inr JNull)));
      [reflexivity|discriminate].
  - split; [exact Hret|exact Hcount].
Defined.

(** ** More on the assistant *)

Lemma plain_space_skipped c r :
  plain_space c = true -> JsString.skip_space (String c r) = Some r.
Proof.
  destruct c as [[] [] [] [] [] [] [] []]; intros H; vm_compute in H;
    try discriminate H; reflexivity.
Qed.

Lemma all_plain_space_blank s fuel :
  all_plain_space s = true -> (String.length s <= fuel)%nat ->
  JsString.blank_fuel fuel s = true.
Proof.
  revert fuel. induction s as [|c r IH]; intros fuel; [by destruct fuel|].
  cbn [all_plain_space String.length].
  intros [Hc Hr]%andb_true_iff Hfuel.
  destruct fuel as [|fuel]; [lia|].
  cbn [JsString.blank_fuel]. rewrite (plain_space_skipped c r Hc).
  apply IH; [done|lia].
Qed.

(** X8.  A chat submission whose input consists of spaces, tabs and
    line breaks only (the empty input included) does nothing at all: no
    request is sent and no cell of the state changes. *)
Theorem whitespace_input_sends_nothing h input hist fit env st :
  all_plain_space input = true ->
  run env (handleGeminiQuery h input hist None fit) st = mkOutcome (inr tt) st [].
Proof.
  intros Hblank. unfold handleGeminiQuery, JsString.trim_is_empty.
  by rewrite (all_plain_space_blank input (String.length input) Hblank).
Qed.

Lemma whitespace_input_sends_nothing_witness :
  run Example.offline
    (handleGeminiQuery ExampleHost.host "   " Example.transcript None false)
    (setChatHistory Example.transcript initial_state)
  = mkOutcome (inr tt) (setChatHistory Example.transcript initial_state) [].
Proof.
  apply (whitespace_input_sends_nothing ExampleHost.host "   "
           Example.transcript false Example.offline
           (setChatHistory Example.transcript initial_state)).
  reflexivity.
Defined.

(** X9.  A query that passes the guard never rejects, and once it has
    settled the chat is idle again: the input is empty, the loading flag
    is false, the submit button is disabled, and submitting again without
    typing does nothing. *)
Theorem query_leaves_chat_idle h input hist cp fit env st env' fit' :
  JsString.trim_is_empty input && negb (truthy_opt cp) = false ->
  let o := run env (handleGeminiQuery h input hist cp fit) st in
  completion o = inr tt
  /\ chatInput (final o) = EmptyString
  /\ isChatLoading (final o) = false
  /\ chat_submit_disabled (final o) = true
  /\ run env' (handleGeminiQuery h (chatInput (final o)) (chatHistory (final o))
                 None fit') (final o)
     = mkOutcome (inr tt) (final o) [].
Proof.
  intros Hguard.
  destruct (run_handleGeminiQuery h input hist cp fit env st Hguard)
    as (_ & Hcompletion & entry & Hfinal & _).
  simpl. rewrite Hfinal. repeat split; try done.
Qed.

Lemma query_leaves_chat_idle_witness :
  chatInput
    (final (run Example.offline
              (handleGeminiQuery ExampleHost.host "How much water per day?"
                 Example.transcript None false)
              (setChatInput "How much water per day?" initial_state)))
    = EmptyString
  /\ isChatLoading
       (final (run Example.offline
                 (handleGeminiQuery ExampleHost.host "How much water per day?"
                    Example.transcript None false)
                 (setChatInput "How much water per day?" initial_state)))
     = false.
Proof.
  destruct (query_leaves_chat_idle ExampleHost.host "How much water per day?"
              Example.transcript None false Example.offline
              (setChatInput "How much water per day?" initial_state)
              Example.offline false eq_refl)
    as (_ & Hinput & Hloading & _).
  split; [exact Hinput|exact Hloading].
Defined.

Lemma attributions_sources_shown h attributions cited :
  attributions_sources h attributions = inr cited -> Forall shown_source cited.
Proof.
  unfold attributions_sources.
  destruct attributions as [| |b|n|s|items|ms]; try done.
  destruct (map_throwing _ items) as [e|all]; [done|].
  intros [= <-]. apply Forall_forall. intros source Hin%list_elem_of_In.
  apply filter_In in Hin as [_ Hshown].
  by apply andb_true_iff in Hshown.
Qed.

Lemma candidate_sources_shown h candidate cited :
  candidate_sources h candidate = inr cited -> Forall shown_source cited.
Proof.
  unfold candidate_sources.
  destruct (Js.get h candidate _) as [e|metadata]; [done|].
  destruct (Js.truthy metadata).
  2:{ intros [= <-]. constructor. }
  destruct (Js.get h metadata _) as [e|attributions]; [done|].
  destruct (Js.truthy attributions).
  - apply attributions_sources_shown.
  - intros [= <-]. constructor.
Qed.

(** How the entry of a settled query comes about: its citations, if it
    has any, are those read from the candidate; and when the text is
    there but reading the citations throws, it is the connection error. *)
Lemma run_handleGeminiQuery_entry h input hist cp fit env st :
  JsString.trim_is_empty input && negb (truthy_opt cp) = false ->
  let history := newHistory input hist cp in
  let request := GeminiGenerate (payload history fit) in
  exists entry,
    final (run env (handleGeminiQuery h input hist cp fit) st)
      = after_query history entry st
    /\ (sources entry = None
        \/ exists candidate cited,
             candidate_sources h candidate = inr cited
             /\ sources entry = Some cited)
    /\ (forall r result t candidate e,
          fetch env request = FetchResolved r ->
          json r = inr result ->
          path_value reply_path result = Some t ->
          Js.truthy t = true ->
          path_value [Field P_candidates; Index 0] result = Some candidate ->
          candidate_sources h candidate = inl e ->
          entry = connectError e).
Proof.
  intros Hguard. unfold handleGeminiQuery. rewrite Hguard. simpl.
  set (history := newHistory input hist cp).
  set (request := GeminiGenerate (payload history fit)).
  set (st1 := setIsChatLoading true _).
  destruct (fetch env request) as [e|r]; simpl.
  { exists (connectError e). repeat split; [by left|done]. }
  destruct (json r) as [e|result] eqn:Hjson; simpl.
  { exists (connectError e). repeat split; [by left|].
    intros ? ? ? ? ? [= <-] Hjson'. congruence. }
  rewrite run_try_finally, run_try_catch. simpl.
  destruct (run_settle_reply h env result st1) as [Hcalls Hcases].
  destruct (run env (settle_reply h result) st1) as [c f cs].
  simpl in Hcalls, Hcases. subst cs.
  destruct (path_value reply_path result) as [t|] eqn:Hpath.
  - destruct (Js.truthy t) eqn:Ht.
    + destruct Hcases as (candidate & Hcandidate & Hsources).
      destruct (candidate_sources h candidate) as [e|cited] eqn:Hcited;
        destruct Hsources as [-> ->]; simpl.
      * exists (connectError e). repeat split; [by left|].
        intros ? ? ? ? ? [= <-] Hjson'.
          rewrite Hjson in Hjson'. injection Hjson' as <-. congruence.
      * exists (mkChat Model t (Some cited)). repeat split.
        -- right. by exists candidate, cited.
        -- intros ? ? ? ? ? [= <-] Hjson'.
          rewrite Hjson in Hjson'. injection Hjson' as <-. congruence.
    + destruct Hcases as [-> ->]; simpl.
      exists contentError. repeat split; [by left|].
      intros ? ? ? ? ? [= <-] Hjson'.
          rewrite Hjson in Hjson'. injection Hjson' as <-. congruence.
  - destruct Hcases as [(e & -> & ->)|[-> ->]]; simpl.
    + exists (connectError e). repeat split; [by left|].
      intros ? ? ? ? ? [= <-] Hjson'.
          rewrite Hjson in Hjson'. injection Hjson' as <-. congruence.
    + exists contentError. repeat split; [by left|].
      intros ? ? ? ? ? [= <-] Hjson'.
          rewrite Hjson in Hjson'. injection Hjson' as <-. congruence.
Qed.

(** X10.  Every citation of the entry a settled query leaves in the
    transcript has a truthy [uri] and a truthy [title]: attributions
    without either are filtered out before the entry is stored. *)
Theorem reply_citations_shown h input hist cp fit env st entry cited :
  JsString.trim_is_empty input && negb (truthy_opt cp) = false ->
  last (chatHistory (final (run env (handleGeminiQuery h input hist cp fit) st)))
    = Some entry ->
  sources entry = Some cited ->
  Forall shown_source cited.
Proof.
  intros Hguard Hlast Hsources.
  destruct (run_handleGeminiQuery_entry h input hist cp fit env st Hguard)
    as (entry' & Hfinal & Hcited & _).
  rewrite Hfinal in Hlast.
  change (last (newHistory input hist cp ++ [entry']) = Some entry) in Hlast.
  rewrite last_snoc in Hlast. injection Hlast as ->.
  destruct Hcited as [Hnone|(candidate & cited' & Hcandidate & Hsome)];
    [congruence|].
  rewrite Hsources in Hsome. injection Hsome as ->.
  by eapply candidate_sources_shown.
Qed.

Lemma reply_citations_shown_witness :
  Forall shown_source
    [mkSource (JStr "https://example.org/water") (JStr "Water")].
Proof.
  apply (reply_citations_shown ExampleHost.host "How much water per day?"
           [] None false (Example.online 200 JNull cited_body) initial_state
           (mkChat Model (JStr "Drink water.")
              (Some [mkSource (JStr "https://example.org/water") (JStr "Water")]))).
  - reflexivity.
  - reflexivity.
  - reflexivity.
Defined.

(** X11.  When the response has the reply text but its grounding
    attributions cannot be read (a [null] among them, or a value that is
    no array), the reply is lost: the entry left in the transcript is the
    connection error with the message of the error thrown. *)
Theorem unreadable_citations_lose_reply h input hist cp fit env st
    r result t candidate e :
  JsString.trim_is_empty input && negb (truthy_opt cp) = false ->
  fetch env (GeminiGenerate (payload (newHistory input hist cp) fit))
    = FetchResolved r ->
  json r = inr result ->
  path_value reply_path result = Some t ->
  Js.truthy t = true ->
  path_value [Field P_candidates; Index 0] result = Some candidate ->
  candidate_sources h candidate = inl e ->
  chatHistory (final (run env (handleGeminiQuery h input hist cp fit) st))
    = newHistory input hist cp ++ [connectError e].
Proof.
  intros Hguard Hfetch Hjson Hpath Ht Hcandidate Hsources.
  destruct (run_handleGeminiQuery_entry h input hist cp fit env st Hguard)
    as (entry & Hfinal & _ & Hlost).
  rewrite Hfinal.
  by rewrite (Hlost r result t candidate e).
Qed.

Lemma unreadable_citations_lose_reply_witness :
  chatHistory
    (final (run (Example.online 200 JNull uncitable_body)
              (handleGeminiQuery ExampleHost.host "How much water per day?"
                 [] None false)
              initial_state))
  = [userTurn "How much water per day?";
     mkChat Model
       (JStr "Failed to connect to AI: Cannot read properties of null (reading 'web').")
       None].
Proof.
  apply (unreadable_citations_lose_reply ExampleHost.host
           "How much water per day?" [] None false
           (Example.online 200 JNull uncitable_body) initial_state
           (mkResponse 200 "OK" (inr uncitable_body)) uncitable_body
           (JStr "Drink water.")
           (JObj
              [("content",
                JObj [("parts", JArr [JObj [("text", JStr "Drink water.")]])]);
               ("groundingMetadata",
                JObj [("groundingAttributions", JArr [JNull])])])
           (mkError "Cannot read properties of null (reading 'web')"));
    reflexivity.
Defined.

(** ** More on assessing the steps *)

(** X12.  When [fetchSteps] returns a number [n >= 0], the assessment
    switches to the chat tab, clears the chat input, and replaces the
    transcript: afterwards it consists of the coaching prompt for [n]
    steps and one model entry, whatever it held before. *)
Theorem assess_replaces_transcript h tok input hist env st n :
  completion (run env (fetchSteps h tok) st) = inr (JNum n) ->
  0 <= n ->
  exists entry,
    chatHistory (final (run env (handleAssessSteps h tok input hist) st))
      = [userTurn (stepsPrompt h (JNum n)); entry]
    /\ role entry = Model
    /\ activeTab (final (run env (handleAssessSteps h tok input hist) st))
       = TabChat
    /\ chatInput (final (run env (handleAssessSteps h tok input hist) st))
       = EmptyString.
Proof.
  intros Hfetched Hn.
  assert (Hguard : stepsGuard h (JNum n) = true).
  { unfold stepsGuard. simpl. apply orb_true_iff.
    destruct (Z.eq_dec n 0) as [->|]; [by right|left].
    apply Z.ltb_lt. lia. }
  unfold handleAssessSteps. rewrite run_bind, Hfetched, Hguard.
  unfold followed_by. simpl.
  destruct (run_handleGeminiQuery h input hist
              (Some (stepsPrompt h (JNum n))) true env
              (setActiveTab TabChat (final (run env (fetchSteps h tok) st))))
    as (_ & _ & entry & Hfinal & Hentry).
  { by rewrite stepsPrompt_truthy, andb_false_r. }
  exists entry. rewrite Hfinal. repeat split.
  by eapply settled_entry_role.
Qed.

Lemma assess_replaces_transcript_witness :
  exists entry,
    chatHistory
      (final (run Example.offline
                (handleAssessSteps ExampleHost.host Example.token
                   "draft" Example.transcript)
                (setChatHistory Example.transcript initial_state)))
      = [userTurn (stepsPrompt ExampleHost.host (JNum 0)); entry]
    /\ role entry = Model.
Proof.
  destruct (assess_replaces_transcript ExampleHost.host Example.token
              "draft" Example.transcript Example.offline
              (setChatHistory Example.transcript initial_state) 0
              eq_refl ltac:(lia))
    as (entry & Hhistory & Hrole & _).
  exists entry. split; [exact Hhistory|exact Hrole].
Defined.

Lemma run_fetchSteps_401 h tok env st r :
  truthy_opt tok = true ->
  fetch env (FitAggregate (token_text tok) (requestBody (now env)))
    = FetchResolved r ->
  status r = 401 ->
  run env (fetchSteps h tok) st
  = mkOutcome (inr (JNum 0))
      (setIsFitLoading false
         (setGoogleAccessToken None
            (setMessage (Some (mkMessage MsgError
               "Google Fit token expired. Please reconnect to Google Fit."))
               (setIsFitLoading true st))))
      [CallFetch (FitAggregate (token_text tok) (requestBody (now env)))].
Proof.
  intros Htok Hfetch Hstatus. unfold fetchSteps. rewrite Htok. simpl.
  rewrite Hfetch. simpl. unfold ok. rewrite Hstatus. simpl. done.
Qed.

(** X13.  An assessment whose step fetch is answered with status 401
    still asks the model, about 0 steps; it clears the token, and it
    leaves the displayed step count as it was, so the count on the Fit
    tab and the count in the prompt can differ. *)
Theorem assess_after_401 h tok input hist env st r :
  truthy_opt tok = true ->
  fetch env (FitAggregate (token_text tok) (requestBody (now env)))
    = FetchResolved r ->
  status r = 401 ->
  let o := run env (handleAssessSteps h tok input hist) st in
  gemini_payloads (calls o)
    = [payload [userTurn (stepsPrompt h (JNum 0))] true]
  /\ googleAccessToken (final o) = None
  /\ stepCount (final o) = stepCount st.
Proof.
  intros Htok Hfetch Hstatus. simpl.
  unfold handleAssessSteps.
  rewrite run_bind, (run_fetchSteps_401 h tok env st r) by done.
  simpl. unfold followed_by. simpl.
  destruct (run_handleGeminiQuery h input hist
              (Some (stepsPrompt h (JNum 0))) true env
              (setActiveTab TabChat
                 (setIsFitLoading false
                    (setGoogleAccessToken None
                       (setMessage (Some (mkMessage MsgError
                          "Google Fit token expired. Please reconnect to Google Fit."))
                          (setIsFitLoading true st))))))
    as (Hcalls & _ & entry & Hfinal & _).
  { by rewrite stepsPrompt_truthy, andb_false_r. }
  rewrite Hcalls, Hfinal. repeat split.
Qed.

Lemma assess_after_401_witness :
  gemini_payloads
    (calls (run (Example.online 401 JNull (Example.reply_body "Keep moving."))
              (handleAssessSteps ExampleHost.host Example.token EmptyString [])
              (setStepCount (Some (JNum 4321)) initial_state)))
    = [payload [userTurn (stepsPrompt ExampleHost.host (JNum 0))] true]
  /\ stepCount
       (final (run (Example.online 401 JNull (Example.reply_body "Keep moving."))
                 (handleAssessSteps ExampleHost.host Example.token EmptyString [])
                 (setStepCount (Some (JNum 4321)) initial_state)))
     = Some (JNum 4321).
Proof.
  destruct (assess_after_401 ExampleHost.host Example.token EmptyString []
              (Example.online 401 JNull (Example.reply_body "Keep moving."))
              (setStepCount (Some (JNum 4321)) initial_state)
              (mkResponse 401 "status" (inr JNull)) eq_refl eq_refl eq_refl)
    as (Hsent & _ & Hcount).
  split; [exact Hsent|exact Hcount].
Defined.

(** ** More on the medication reminders *)

Lemma calls_handleDelete env c id st :
  calls (run env (handleDelete (Some c) id) st) = [CallStore (DeleteDoc c id)].
Proof. simpl. by destruct (store env _). Qed.

Lemma delete_click_collection r c id w :
  collection (world_step r (handleDelete (Some c) id) w)
    = delete id (collection w).
Proof.
  unfold world_step. cbv zeta. cbn [collection].
  by rewrite calls_handleDelete.
Qed.

(** X14.  On a synced list, deleting a record removes exactly that
    record: afterwards the list holds the other records and no record
    with the identifier of the deleted one, and a second delete of the
    same identifier changes nothing. *)
Theorem delete_removes_record c r r' med w :
  medications (app w) = Firestore.snapshot (collection w) ->
  med ∈ medications (app w) ->
  let w1 := world_step r (handleDelete (Some c) (med_id med)) w in
  (forall other,
     other ∈ medications (app w1)
     <-> other ∈ medications (app w) /\ med_id other <> med_id med)
  /\ medications (app w) ≡ₚ med :: medications (app w1)
  /\ collection (world_step r' (handleDelete (Some c) (med_id med)) w1)
     = collection w1.
Proof.
  intros Hsynced Hmed w1. rewrite Hsynced in *.
  apply snapshot_elem_of in Hmed as (d & Hd & Hrecord).
  assert (Hw1 : collection w1 = delete (med_id med) (collection w))
    by apply delete_click_collection.
  change (medications (app w1)) with (Firestore.snapshot (collection w1)).
  rewrite Hw1. split; [|split].
  - intros other. split.
    + intros (d' & Hd' & Hother)%snapshot_elem_of.
      apply lookup_delete_Some in Hd' as [Hne Hd'].
      split; [|done]. apply snapshot_elem_of. by exists d'.
    + intros [(d' & Hd' & Hother)%snapshot_elem_of Hne].
      apply snapshot_elem_of. exists d'. split; [|done].
      by apply lookup_delete_Some.
  - assert (Hperm : Firestore.snapshot (collection w)
              ≡ₚ Firestore.record (med_id med, d)
                   :: Firestore.snapshot (delete (med_id med) (collection w))).
    { rewrite <- (snapshot_insert_fresh (delete (med_id med) (collection w)))
        by apply lookup_delete_eq.
      by rewrite insert_delete_id. }
    by rewrite <- Hrecord in Hperm.
  - rewrite delete_click_collection, Hw1. apply delete_delete_eq.
Qed.

Lemma delete_removes_record_witness :
  medications (app Example.world)
    ≡ₚ Firestore.record ("med-1", Example.aspirin)
         :: medications
              (app (world_step Example.remote
                      (handleDelete (Some Example.ref) "med-1") Example.world)).
Proof.
  apply (delete_removes_record Example.ref Example.remote Example.remote
           (Firestore.record ("med-1", Example.aspirin)) Example.world).
  - reflexivity.
  - apply snapshot_elem_of. exists Example.aspirin.
    split; [apply lookup_singleton_eq|reflexivity].
Defined.

(** X15.  Creating a reminder and then deleting the record the store
    made for it brings the collection, and with it the synced list, back
    to where it was. *)
Theorem submit_then_delete_restores c name dose time r r' w :
  collection w !! new_id r = None ->
  name <> EmptyString -> dose <> EmptyString -> time <> EmptyString ->
  let w1 := world_step r (handleSubmit name dose time (Some c)) w in
  let w2 := world_step r' (handleDelete (Some c) (new_id r)) w1 in
  new_id r ∈ med_id <$> medications (app w1)
  /\ collection w2 = collection w
  /\ medications (app w2) = Firestore.snapshot (collection w).
Proof.
  intros Hfresh Hname%truthy_nonempty Hdose%truthy_nonempty
    Htime%truthy_nonempty w1 w2.
  assert (Hw1 : collection w1
            = <[new_id r := Firestore.create
                  (mkNew name dose time false ServerTimestamp) (server_time r)]>
                (collection w)).
  { unfold w1, world_step. cbv zeta. cbn [collection].
    by rewrite calls_handleSubmit_valid. }
  assert (Hw2 : collection w2 = collection w).
  { unfold w2. rewrite delete_click_collection, Hw1.
    by apply delete_insert_id. }
  repeat split.
  - change (medications (app w1)) with (Firestore.snapshot (collection w1)).
    rewrite Hw1. apply list_elem_of_fmap.
    exists (Firestore.record
              (new_id r,
               Firestore.create (mkNew name dose time false ServerTimestamp)
                 (server_time r))).
    split; [done|]. apply snapshot_elem_of. eexists.
    split; [apply lookup_insert_eq|done].
  - exact Hw2.
  - change (medications (app w2)) with (Firestore.snapshot (collection w2)).
    by rewrite Hw2.
Qed.

Lemma submit_then_delete_restores_witness :
  collection
    (world_step Example.remote (handleDelete (Some Example.ref) "med-2")
       (world_step Example.remote
          (handleSubmit "Ibuprofen" "200mg" "20:00" (Some Example.ref))
          Example.world))
  = collection Example.world.
Proof.
  apply (submit_then_delete_restores Example.ref "Ibuprofen" "200mg" "20:00"
           Example.remote Example.remote Example.world).
  - apply lookup_singleton_ne. discriminate.
  - discriminate.
  - discriminate.
  - discriminate.
Defined.

(** X16.  A valid submission never rejects and sends one create
    request.  Whether the store accepts or rejects the new document, the
    three fields of the form are empty afterwards, and nothing else of
    the component changes but the notice.  When the store accepts, the
    handler empties the fields itself and the notice is untouched; when
    the store rejects, the handler raises the failure notice, [App]
    renders again and mounts an empty form: what was typed is lost. *)
Theorem submit_outcome name dose time c env st :
  name <> EmptyString -> dose <> EmptyString -> time <> EmptyString ->
  let request := AddDoc c (mkNew name dose time false ServerTimestamp) in
  let o := run env (handleSubmit name dose time (Some c)) st in
  completion o = inr tt
  /\ calls o = [CallStore request]
  /\ formName (final o) = EmptyString
  /\ formDose (final o) = EmptyString
  /\ formTime (final o) = EmptyString
  /\ outside_form (final o) = outside_form st
  /\ message (final o)
     = match store env request with
       | StoreResolved => message st
       | StoreRejected _ =>
           Some (mkMessage MsgError
                   "Failed to add medication. See console for details.")
       end.
Proof.
  intros Hname%truthy_nonempty Hdose%truthy_nonempty Htime%truthy_nonempty.
  unfold handleSubmit. rewrite Hname, Hdose, Htime. simpl.
  by destruct (store env _).
Qed.

Lemma submit_outcome_witness :
  let typed :=
    setFormTime "20:00"
      (setFormDose "200mg" (setFormName "Ibuprofen" initial_state)) in
  let o := run (mkEnv Example.clock (fetch Example.offline)
                  (fun _ => StoreRejected (mkError "permission-denied")))
             (handleSubmit "Ibuprofen" "200mg" "20:00" (Some Example.ref))
             typed in
  formName typed = "Ibuprofen"
  /\ formName (final o) = EmptyString
  /\ formDose (final o) = EmptyString
  /\ formTime (final o) = EmptyString
  /\ message (final o)
     = Some (mkMessage MsgError
               "Failed to add medication. See console for details.").
Proof.
  destruct (submit_outcome "Ibuprofen" "200mg" "20:00" Example.ref
              (mkEnv Example.clock (fetch Example.offline)
                 (fun _ => StoreRejected (mkError "permission-denied")))
              (setFormTime "20:00"
                 (setFormDose "200mg" (setFormName "Ibuprofen" initial_state))))
    as (_ & _ & Hname & Hdose & Htime & _ & Hmessage);
    [discriminate|discriminate|discriminate|].
  split; [reflexivity|].
  split; [exact Hname|]. split; [exact Hdose|]. split; [exact Htime|].
  exact Hmessage.
Defined.

(** ** Connecting to Google Fit *)

#[local] Arguments String.append : simpl nomatch.

Lemma string_app_assoc (a b c : string) : (a +:+ b) +:+ c = a +:+ (b +:+ c).
Proof. induction a as [|x a IH]; simpl; [done|]. by f_equal. Qed.

Lemma split_on_absent c s :
  occurs c s = false -> JsString.split_on c s = [s].
Proof.
  induction s as [|x r IH]; simpl; [done|].
  intros [Hx Hr]%orb_false_iff. by rewrite Hx, (IH Hr).
Qed.

Lemma split_on_app c a b :
  occurs c a = false ->
  JsString.split_on c (a +:+ String c b) = a :: JsString.split_on c b.
Proof.
  induction a as [|x a IH]; simpl.
  - intros _. by rewrite Ascii.eqb_refl.
  - intros [Hx Ha]%orb_false_iff. by rewrite Hx, (IH Ha).
Qed.

Lemma replace_all_absent c d s :
  occurs c s = false -> JsString.replace_all c d s = s.
Proof.
  induction s as [|x r IH]; simpl; [done|].
  intros [Hx Hr]%orb_false_iff. by rewrite Hx, (IH Hr).
Qed.

Lemma percent_decode_absent s :
  occurs "%"%char s = false -> URLSearchParams.percent_decode s = s.
Proof.
  induction s as [|x r IH]; [done|].
  cbn [occurs URLSearchParams.percent_decode].
  intros [Hx Hr]%orb_false_iff. by rewrite Hx, (IH Hr).
Qed.

Lemma occurs_app c a b : occurs c (a +:+ b) = occurs c a || occurs c b.
Proof.
  induction a as [|x a IH]; simpl; [done|]. by rewrite IH, orb_assoc.
Qed.

Lemma query_safe_absent c s :
  url_plain c = false -> query_safe s = true -> occurs c s = false.
Proof.
  intros Hc. induction s as [|x r IH]; simpl; [done|].
  intros [Hx Hr]%andb_true_iff. rewrite (IH Hr), orb_false_r.
  apply Ascii.eqb_neq. intros ->. congruence.
Qed.

Lemma decode_safe s : query_safe s = true -> URLSearchParams.decode s = s.
Proof.
  intros Hs. unfold URLSearchParams.decode.
  rewrite replace_all_absent, percent_decode_absent;
    [done|by apply query_safe_absent..].
Qed.

Lemma query_safe_no_amp s : query_safe s = true -> occurs "&"%char s = false.
Proof. by apply query_safe_absent. Qed.

(** X17.  With the client identifier the source ships with, the connect
    handler only raises the notice and sends the browser nowhere.  With
    any other identifier it changes no state and sends the browser to
    an address that, for an identifier and an origin made of letters,
    digits and [- . / : _ ~], has no fragment and whose query, read as
    [URLSearchParams] reads it, has exactly five parameters: the
    identifier, the origin as redirect address, the response type
    [token], the Fitness read scope, and as [state] the constant that
    the redirect effect compares with. *)
Theorem sign_in_redirect client_id origin st :
  handleGoogleSignIn GOOGLE_CLIENT_ID origin st
    = (setMessage (Some (mkMessage MsgError
         "ERROR: Please replace YOUR_GOOGLE_FIT_CLIENT_ID in the code with your actual Client ID."))
         st, None)
  /\ (client_id <> GOOGLE_CLIENT_ID ->
      query_safe client_id = true -> query_safe origin = true ->
      exists url,
        handleGoogleSignIn client_id origin st = (st, Some url)
        /\ occurs "#"%char url = false
        /\ URLSearchParams.create (url_query url)
           = [("client_id", client_id); ("redirect_uri", origin);
              ("response_type", "token");
              ("scope", "https://www.googleapis.com/auth/fitness.activity.read");
              ("state", oauth_state)]).
Proof.
  split; [reflexivity|].
  intros Hid%String.eqb_neq Hclient Horigin.
  unfold handleGoogleSignIn. unfold GOOGLE_CLIENT_ID in Hid. rewrite Hid.
  eexists. split; [reflexivity|].
  assert (Hfragment : occurs "#"%char (authUrl client_id origin) = false).
  { unfold authUrl. rewrite !occurs_app.
    by rewrite (query_safe_absent "#"%char client_id),
         (query_safe_absent "#"%char origin). }
  split; [exact Hfragment|].
  unfold url_query. rewrite (cut_first_absent _ _ Hfragment).
  unfold authUrl. rewrite !string_app_assoc.
  unfold URLSearchParams.create, URLSearchParams.parse. simpl.
  rewrite (split_on_app "&"%char client_id) by by apply query_safe_no_amp.
  simpl.
  rewrite (split_on_app "&"%char origin) by by apply query_safe_no_amp.
  simpl. unfold URLSearchParams.parse_piece. simpl.
  rewrite !decode_safe by done. reflexivity.
Qed.

Lemma sign_in_redirect_witness :
  exists url,
    handleGoogleSignIn "1234-abc.apps.googleusercontent.com"
      "https://health.example" initial_state = (initial_state, Some url)
    /\ occurs "#"%char url = false
    /\ URLSearchParams.create (url_query url)
       = [("client_id", "1234-abc.apps.googleusercontent.com");
          ("redirect_uri", "https://health.example");
          ("response_type", "token");
          ("scope", "https://www.googleapis.com/auth/fitness.activity.read");
          ("state", oauth_state)].
Proof.
  apply (sign_in_redirect "1234-abc.apps.googleusercontent.com"
           "https://health.example" initial_state).
  - discriminate.
  - reflexivity.
  - reflexivity.
Defined.

Lemma occurs_replace_other c a d s :
  c <> d -> occurs c s = false -> occurs c (JsString.replace_all a d s) = false.
Proof.
  intros Hcd. induction s as [|x r IH]; simpl; [done|].
  intros [Hx Hr]%orb_false_iff. rewrite (IH Hr), orb_false_r.
  destruct (Ascii.eqb x a); [|done].
  apply Ascii.eqb_neq. congruence.
Qed.

Lemma hash_state_never_matches w : state_matches (hash_state w) = false.
Proof.
  unfold hash_state, find_param.
  destruct (List.find _ (hash_params w)) as [entry|] eqn:Hfind; [|done].
  apply find_some in Hfind as [Hin _].
  pose proof (hash_params_values_empty w) as Hall.
  rewrite Forall_forall in Hall.
  simpl. rewrite (Hall entry); [done|]. by apply list_elem_of_In.
Qed.

(** X18.  Whatever the address of the page is, the redirect effect reads
    from its hash at most one parameter, with the empty value: the token
    it finds is [null] or empty, the state it finds is never the expected
    constant, and the effect changes neither the state nor the address. *)
Theorem oauth_redirect_never_accepts w st :
  (length (hash_params w) <= 1)%nat
  /\ Forall (fun entry => entry.2 = EmptyString) (hash_params w)
  /\ truthy_opt (hash_accessToken w) = false
  /\ hash_state w <> Some oauth_state
  /\ oauth_redirect_effect w st = (w, st).
Proof.
  split; [|split; [apply hash_params_values_empty|split;
    [apply hash_accessToken_falsy|split; [|apply oauth_redirect_effect_inert]]]].
  - unfold hash_params, URLSearchParams.create, URLSearchParams.parse.
    set (input := if JsString.startsWith _ "?" then _ else _).
    assert (Hinput : occurs "&"%char input = false).
    { subst input. destruct (JsString.startsWith _ "?").
      - apply occurs_substring1, occurs_replace_other; [discriminate|].
        apply occurs_replace_all. discriminate.
      - apply occurs_replace_other; [discriminate|].
        apply occurs_replace_all. discriminate. }
    rewrite length_map, (split_on_absent "&"%char input Hinput). simpl.
    destruct (JsString.truthy input); simpl; lia.
  - intros Hstate. pose proof (hash_state_never_matches w) as Hmatch.
    rewrite Hstate in Hmatch. discriminate Hmatch.
Qed.

(** ** Signed out *)

(** X19.  For a user that is signed out (or whose identifier is empty)
    there is no collection.  A submission of a filled form then raises
    the notice that all fields are required and sends nothing; the
    notice renders [App] again, which mounts an empty form, so what was
    typed is lost, and nothing else of the component changes.  Toggle
    and delete do nothing at all. *)
Theorem signed_out_handlers appId user name dose time id isTaken env st :
  truthy_opt user = false ->
  let st' :=
    setFormTime time
      (setFormDose dose (setFormName name (authStateChanged user st))) in
  let collectionRef := userMedicationsCollectionRef appId (userId st') in
  let o := run env (handleSubmit name dose time collectionRef) st' in
  collectionRef = None
  /\ completion o = inr tt
  /\ calls o = []
  /\ message (final o) = Some (mkMessage MsgError "All fields are required.")
  /\ formName (final o) = EmptyString
  /\ formDose (final o) = EmptyString
  /\ formTime (final o) = EmptyString
  /\ outside_form (final o) = outside_form st'
  /\ run env (handleToggleTaken collectionRef id isTaken) st'
     = mkOutcome (inr tt) st' []
  /\ run env (handleDelete collectionRef id) st' = mkOutcome (inr tt) st' [].
Proof.
  intros Huser. simpl. unfold userMedicationsCollectionRef.
  rewrite Huser. simpl. done.
Qed.

Lemma signed_out_handlers_witness :
  let typed :=
    setFormTime "20:00"
      (setFormDose "200mg"
         (setFormName "Ibuprofen" (authStateChanged None initial_state))) in
  let o := run Example.offline
             (handleSubmit "Ibuprofen" "200mg" "20:00"
                (userMedicationsCollectionRef "default-app-id" (userId typed)))
             typed in
  formName typed = "Ibuprofen"
  /\ calls o = []
  /\ message (final o) = Some (mkMessage MsgError "All fields are required.")
  /\ formName (final o) = EmptyString.
Proof.
  destruct (signed_out_handlers "default-app-id" None "Ibuprofen" "200mg"
              "20:00" "med-1" false Example.offline initial_state eq_refl)
    as (_ & _ & Hcalls & Hmessage & Hname & _).
  split; [reflexivity|].
  split; [exact Hcalls|]. split; [exact Hmessage|exact Hname].
Defined.
